(** * Odds conversion and opportunity matching

    A shallow embedding of [src/analysis/odds_converter.py] and
    [src/analysis/comparator.py], with the properties of the
    specification stated over it.

    Conventions of the embedding:
    - a Python [int] is a [Z];
    - a Python [float] is an IEEE 754 binary64 value, represented by
      [spec_float] and the bit-exact operations of [SpecFloat] at
      precision 53 and maximal exponent 1024 (round to nearest, ties to
      even, as the C doubles under CPython);
    - a Python [str] is a [string]; [PyStr.lower] is [str.lower] on
      ASCII text, where it maps the letters [A]-[Z] to [a]-[z] and
      leaves every other character alone; a statement that depends on
      what [lower] does to a letter assumes ASCII text ([PyStr.isascii]);
    - a Python [dict] used as a record is a [Record] whose fields are
      [option]s: [None] is an absent key, and subscripting it raises
      [KeyError]; the decoded JSON of the API, read with [.get], tells
      an absent key from a null where the code does ([json_field]);
    - exceptions are explicit: every function that can raise returns a
      [result];
    - the calls of the logger do not touch the result and are left
      out. *)

From Stdlib Require Import ZArith List String Ascii Bool Lia Permutation.
From Stdlib Require Import SpecFloat.
From Stdlib Require Import DecimalFacts DecimalString DecimalZ DecimalPos.
Import ListNotations.

Local Open Scope string_scope.
Local Open Scope list_scope.
Local Open Scope Z_scope.

(** ** Exceptions *)

Inductive exn : Type :=
| KeyError (key : string)
| ZeroDivisionError
| OverflowError
| ValueError
| AttributeError
| TypeError.

Inductive result (A : Type) : Type :=
| Ok (a : A)
| Raise (e : exn).

Arguments Ok {A} a.
Arguments Raise {A} e.

Definition bind {A B : Type} (c : result A) (k : A -> result B) : result B :=
  match c with
  | Ok a => k a
  | Raise e => Raise e
  end.

Notation "x <- c ;; k" := (bind c (fun x => k))
  (at level 61, c at next level, right associativity).

(** [d[key]] on a record field. *)
Definition subscript {A : Type} (key : string) (field : option A) : result A :=
  match field with
  | Some v => Ok v
  | None => Raise (KeyError key)
  end.

(** A [for] loop whose body appends to one list: the bodies run in
    order, the first exception ends the loop. *)
Fixpoint for_extend {A B : Type} (body : A -> result (list B)) (l : list A)
  : result (list B) :=
  match l with
  | [] => Ok []
  | x :: l' =>
      out <- body x ;;
      rest <- for_extend body l' ;;
      Ok (out ++ rest)
  end.

(** ** Python floats *)

Module PyFloat.

Definition prec : Z := 53.
Definition emax : Z := 1024.

Definition float : Type := spec_float.

Definition add : float -> float -> float := SFadd prec emax.
Definition sub : float -> float -> float := SFsub prec emax.
Definition mul : float -> float -> float := SFmul prec emax.
Definition abs : float -> float := SFabs.
Definition ltb : float -> float -> bool := SFltb.
Definition leb : float -> float -> bool := SFleb.
Definition eqb : float -> float -> bool := SFeqb.

Definition is_nan (x : float) : bool :=
  match x with S754_nan => true | _ => false end.

Definition is_inf (x : float) : bool :=
  match x with S754_infinity _ => true | _ => false end.

(** An integer as an (unrounded) significand with exponent 0. *)
Definition of_Z_exact (n : Z) : float :=
  match n with
  | Z0 => S754_zero false
  | Zpos p => S754_finite false p 0
  | Zneg p => S754_finite true p 0
  end.

(** The correctly rounded quotient of two integers. *)
Definition quotient (a b : Z) : float :=
  SFdiv prec emax (of_Z_exact a) (of_Z_exact b).

(** [float(n)]: the nearest double, [OverflowError] beyond the range. *)
Definition of_int (n : Z) : result float :=
  let x := binary_normalize prec emax n 0 false in
  if is_inf x then Raise OverflowError else Ok x.

(** A float literal [n / 10^k] written in decimal. *)
Definition literal (n : Z) (k : Z) : float := quotient n (10 ^ k).

(** [a / b] on two ints: correctly rounded. *)
Definition int_truediv (a b : Z) : result float :=
  if b =? 0 then Raise ZeroDivisionError
  else
    let q := quotient a b in
    if is_inf q then Raise OverflowError else Ok q.

(** [x / y] on two floats. *)
Definition truediv (x y : float) : result float :=
  if eqb y (S754_zero false) then Raise ZeroDivisionError
  else Ok (SFdiv prec emax x y).

(** [int(x)]: truncation toward zero. *)
Definition to_int (x : float) : result Z :=
  match x with
  | S754_nan => Raise ValueError
  | S754_infinity _ => Raise OverflowError
  | S754_zero _ => Ok 0
  | S754_finite s m e =>
      let v := match e with
               | Zneg p => Z.shiftr (Zpos m) (Zpos p)
               | _ => Z.shiftl (Zpos m) e
               end in
      Ok (if s then - v else v)
  end.

(** The exact value of [m * 2^e] as a fraction. *)
Definition fraction (m : positive) (e : Z) : Z * Z :=
  match e with
  | Zneg p => (Zpos m, 2 ^ Zpos p)
  | _ => (Z.shiftl (Zpos m) e, 1)
  end.

(** [x == n] for a float and an int: the comparison is exact. *)
Definition eq_int (x : float) (n : Z) : bool :=
  match x with
  | S754_zero _ => n =? 0
  | S754_finite s m e =>
      let (num, den) := fraction m e in
      (if s then - num else num) =? n * den
  | _ => false
  end.

(** The integer nearest to [p / q], ties to even; [0 < q]. *)
Definition nearest_even (p q : Z) : Z :=
  let (d, r) := Z.div_eucl p q in
  match 2 * r ?= q with
  | Lt => d
  | Gt => d + 1
  | Eq => if Z.even d then d else d + 1
  end.

(** [round(x)]: the nearest integer, ties to even. *)
Definition round (x : float) : result Z :=
  match x with
  | S754_nan => Raise ValueError
  | S754_infinity _ => Raise OverflowError
  | S754_zero _ => Ok 0
  | S754_finite s m e =>
      let v := match e with
               | Zneg p => nearest_even (Zpos m) (2 ^ Zpos p)
               | _ => Z.shiftl (Zpos m) e
               end in
      Ok (if s then - v else v)
  end.

(** [round(x, ndigits)] for [0 <= ndigits]: the decimal with [ndigits]
    places nearest to the exact value of [x] (ties to even), read back
    as the nearest double. *)
Definition round_ndigits (x : float) (ndigits : Z) : result float :=
  match x with
  | S754_finite s m e =>
      let scale := 10 ^ ndigits in
      let n := match e with
               | Zneg p => nearest_even (Zpos m * scale) (2 ^ Zpos p)
               | _ => Z.shiftl (Zpos m) e * scale
               end in
      let r := quotient n scale in
      if is_inf r then Raise OverflowError
      else Ok (if s then SFopp r else r)
  | _ => Ok x
  end.

End PyFloat.

(** ** Python strings *)

Module PyStr.


(** [c.lower()] on one ASCII character. *)
Definition lower_ascii (c : ascii) : ascii :=
  let n := nat_of_ascii c in
  if (Nat.leb 65 n && Nat.leb n 90)%bool then ascii_of_nat (n + 32) else c.

(** [s.lower()] on ASCII text. On other text [str.lower] also folds
    the cased letters beyond [Z], which this function keeps. *)
Fixpoint lower (s : string) : string :=
  match s with
  | EmptyString => EmptyString
  | String c s' => String (lower_ascii c) (lower s')
  end.

(** [s.startswith(p)] *)
Fixpoint startswith (p s : string) : bool :=
  match p, s with
  | EmptyString, _ => true
  | String _ _, EmptyString => false
  | String a p', String b s' => (Ascii.eqb a b && startswith p' s')%bool
  end.

(** [needle in hay] *)
Fixpoint contains (needle hay : string) : bool :=
  match hay with
  | EmptyString => startswith needle EmptyString
  | String _ hay' => (startswith needle hay || contains needle hay')%bool
  end.

(** [str(n)] on an int. *)
Definition of_int (n : Z) : string := NilZero.string_of_int (Z.to_int n).

(** [c * n] for a one-character string. *)
Fixpoint repeat (c : ascii) (n : nat) : string :=
  match n with
  | O => EmptyString
  | S n' => String c (repeat c n')
  end.

(** [s.rstrip('0')] *)
Fixpoint rstrip_zeros (s : string) : string :=
  match s with
  | EmptyString => EmptyString
  | String c s' =>
      match rstrip_zeros s' with
      | EmptyString => if Ascii.eqb c "0" then EmptyString else String c EmptyString
      | t => String c t
      end
  end.

(** [s[:n]] and [s[n:]] *)
Fixpoint take (n : nat) (s : string) : string :=
  match n, s with
  | S n', String c s' => String c (take n' s')
  | _, _ => EmptyString
  end.

Fixpoint drop (n : nat) (s : string) : string :=
  match n, s with
  | S n', String _ s' => drop n' s'
  | _, _ => s
  end.

End PyStr.

(** ** Formatting floats

    [repr] is the shortest decimal that reads back as the same double
    (the closest one to the value when several have that length);
    [format_g] is the presentation type [g] at its default precision of
    six significant digits. Both work on the exact value [m * 2^e]. *)

Module PyFormat.

Import PyFloat.

Fixpoint exp10_up (fuel : nat) (num den x : Z) : Z :=
  match fuel with
  | O => x
  | S f => if 10 * den <=? num then exp10_up f num (10 * den) (x + 1) else x
  end.

Fixpoint exp10_down (fuel : nat) (num den x : Z) : Z :=
  match fuel with
  | O => x
  | S f => if num <? den then exp10_down f (10 * num) den (x - 1) else x
  end.

(** The [x] with [10^x <= num / den < 10^(x+1)], for a positive double. *)
Definition decimal_exponent (num den : Z) : Z :=
  if den <=? num then exp10_up 400 num den 0 else exp10_down 400 num den 0.

(** [num / den] divided by [10^k], as a fraction. *)
Definition scaled (num den k : Z) : Z * Z :=
  if 0 <=? k then (num, den * 10 ^ k) else (num * 10 ^ (- k), den).

(** The double nearest to [d * 10^k]. *)
Definition read_decimal (d k : Z) : float :=
  if 0 <=? k then quotient (d * 10 ^ k) 1 else quotient d (10 ^ (- k)).

Definition same (x y : float) : bool :=
  match x, y with
  | S754_finite s1 m1 e1, S754_finite s2 m2 e2 =>
      (Bool.eqb s1 s2 && Pos.eqb m1 m2 && Z.eqb e1 e2)%bool
  | S754_zero s1, S754_zero s2 => Bool.eqb s1 s2
  | S754_infinity s1, S754_infinity s2 => Bool.eqb s1 s2
  | S754_nan, S754_nan => true
  | _, _ => false
  end.

(** The digits [d] of an [n]-digit decimal [d * 10^k] that reads back
    as [m * 2^e], if there is one. *)
Definition candidate (m : positive) (e : Z) (n : Z) : option (Z * Z) :=
  let (num, den) := fraction m e in
  let k := decimal_exponent num den + 1 - n in
  let (p, q) := scaled num den k in
  let lo := p / q in
  let hi := lo + 1 in
  let x := S754_finite false m e in
  match same (read_decimal lo k) x, same (read_decimal hi k) x with
  | true, false => Some (lo, k)
  | false, true => Some (hi, k)
  | true, true =>
      match 2 * p ?= (lo + hi) * q with
      | Lt => Some (lo, k)
      | Gt => Some (hi, k)
      | Eq => Some (if Z.even lo then lo else hi, k)
      end
  | false, false => None
  end.

(** The [n] significant digits nearest to [m * 2^e]. *)
Definition nearest_digits (m : positive) (e : Z) (n : Z) : Z * Z :=
  let (num, den) := fraction m e in
  let k := decimal_exponent num den + 1 - n in
  let (p, q) := scaled num den k in
  (nearest_even p q, k).

Fixpoint shortest (fuel : nat) (m : positive) (e : Z) (n : Z) : Z * Z :=
  match fuel with
  | O => nearest_digits m e 17
  | S f =>
      match candidate m e n with
      | Some dk => dk
      | None => shortest f m e (n + 1)
      end
  end.

(** The digits without their trailing zeros, and the position of the
    decimal point counted from the first digit. *)
Definition digits_decpt (dk : Z * Z) : string * Z :=
  let (d, k) := dk in
  let ds := PyStr.of_int d in
  (PyStr.rstrip_zeros ds, Z.of_nat (String.length ds) + k).

Definition exponent_part (x : Z) : string :=
  let a := PyStr.of_int (Z.abs x) in
  "e" ++ (if x <? 0 then "-" else "+") ++ (if Z.abs x <? 10 then "0" else "") ++ a.

Definition scientific (ds : string) (decpt : Z) : string :=
  match ds with
  | EmptyString => EmptyString
  | String c EmptyString => String c (exponent_part (decpt - 1))
  | String c rest => String c ("." ++ rest ++ exponent_part (decpt - 1))
  end.

(** Positional notation; [dot0] appends [".0"] to a whole number. *)
Definition positional (ds : string) (decpt : Z) (dot0 : bool) : string :=
  let len := Z.of_nat (String.length ds) in
  if decpt <=? 0 then "0." ++ PyStr.repeat "0" (Z.to_nat (- decpt)) ++ ds
  else if len <=? decpt then
    ds ++ PyStr.repeat "0" (Z.to_nat (decpt - len)) ++ (if dot0 then ".0" else "")
  else PyStr.take (Z.to_nat decpt) ds ++ "." ++ PyStr.drop (Z.to_nat decpt) ds.

(** [repr(x)], which is also [str(x)] and [f"{x}"]. *)
Definition repr (x : float) : string :=
  match x with
  | S754_nan => "nan"
  | S754_infinity s => if s then "-inf" else "inf"
  | S754_zero s => if s then "-0.0" else "0.0"
  | S754_finite s m e =>
      let (ds, decpt) := digits_decpt (shortest 17 m e 1) in
      (if s then "-" else "") ++
      (if ((decpt <=? -4) || (16 <? decpt))%bool then scientific ds decpt
       else positional ds decpt true)
  end.

(** [format(x, "+g")], as in [f"{x:+g}"]. *)
Definition format_plus_g (x : float) : string :=
  match x with
  | S754_nan => "+nan"
  | S754_infinity s => if s then "-inf" else "+inf"
  | S754_zero s => if s then "-0" else "+0"
  | S754_finite s m e =>
      let (ds, decpt) := digits_decpt (nearest_digits m e 6) in
      (if s then "-" else "+") ++
      (if ((decpt <=? -4) || (6 <? decpt))%bool then scientific ds decpt
       else positional ds decpt false)
  end.

End PyFormat.

(** ** [odds_converter.py] *)

Module OddsConverter.

Import PyFloat.

Definition f1 : float := Eval vm_compute in literal 1 0.
Definition f2 : float := Eval vm_compute in literal 2 0.
Definition f100 : float := Eval vm_compute in literal 100 0.

Definition american_to_decimal (american_odds : Z) : result float :=
  if american_odds >? 0 then
    q <- int_truediv american_odds 100 ;;
    Ok (add q f1)
  else
    q <- int_truediv 100 (Z.abs american_odds) ;;
    Ok (add q f1).

Definition decimal_to_american (decimal_odds : float) : result Z :=
  if leb f2 decimal_odds then
    to_int (mul (sub decimal_odds f1) f100)
  else
    q <- truediv (SFopp f100) (sub decimal_odds f1) ;;
    to_int q.

Definition decimal_to_probability (decimal_odds : float) : result float :=
  q <- truediv f1 decimal_odds ;;
  Ok (mul q f100).

Definition american_to_probability (american_odds : Z) : result float :=
  decimal <- american_to_decimal american_odds ;;
  decimal_to_probability decimal.

Definition probability_to_decimal (probability : float) : result float :=
  truediv f100 probability.

Definition kalshi_price_to_probability (price : Z) : result float :=
  of_int price.

Definition probability_to_kalshi_price (probability : float) : result Z :=
  round probability.

End OddsConverter.

(** ** [comparator.py] *)

Module OddsComparator.

Import PyFloat.

(** *** The records read and written *)

(** One entry of [match['markets']]. *)
Record spread_market : Type := {
  type : option string;
  home_spread : option float;
  home_odds : option Z;
  away_spread : option float;
  away_odds : option Z
}.

(** One sportsbook match. *)
Record sportsbook_match : Type := {
  match_id : option string;
  home_team : option string;
  away_team : option string;
  start_time : option string;
  competition : option string;
  markets : option (list spread_market)
}.

(** One Kalshi market (contract). *)
Record kalshi_market : Type := {
  market_id : option string;
  ticker : option string;
  title : option string;
  subtitle : option string;
  yes_bid : option Z;
  yes_ask : option Z;
  no_bid : option Z;
  no_ask : option Z;
  last_price : option Z;
  volume : option Z
}.

(** One emitted opportunity. *)
Record opportunity : Type := {
  match_name : string;
  sportsbook : string;
  sportsbook_market : string;
  sportsbook_odds : Z;
  sportsbook_implied_prob : float;
  kalshi_contract : string;
  kalshi_price : Z;
  kalshi_implied_prob : float;
  edge_percentage : float
}.

(** [match[key]] for the keys that hold a string. *)
Definition match_getitem (match_ : sportsbook_match) (key : string)
  : result string :=
  subscript key
    (if String.eqb key "home_team" then home_team match_
     else if String.eqb key "away_team" then away_team match_
     else if String.eqb key "id" then match_id match_
     else if String.eqb key "start_time" then start_time match_
     else if String.eqb key "competition" then competition match_
     else None).

(** *** [list.sort(key=..., reverse=True)]

    The sort is stable and compares keys with [<] only; the largest
    keys come first and equal keys keep their order. *)

Fixpoint insert_desc {A : Type} (key : A -> float) (x : A) (l : list A)
  : list A :=
  match l with
  | [] => [x]
  | y :: l' =>
      if ltb (key x) (key y) then y :: insert_desc key x l' else x :: l
  end.

Definition sort_reverse {A : Type} (key : A -> float) (l : list A) : list A :=
  fold_right (insert_desc key) [] l.

(** *** The comparator object *)

Record OddsComparator : Type := { threshold : float }.

Definition default_threshold : float := Eval vm_compute in literal 50 1.

Definition __init__ (threshold : option float) : OddsComparator :=
  {| threshold := match threshold with Some t => t | None => default_threshold end |}.

Definition zero : float := S754_zero false.

Definition plus_indicators : list string := ["+"; "plus"; "more than"].
Definition minus_indicators : list string := ["-"; "minus"; "less than"].

Definition _is_matching_spread_market (self : OddsComparator)
  (kalshi_market : kalshi_market) (team_name : string) (spread : float)
  : result bool :=
  t <- subscript "title" (title kalshi_market) ;;
  let title := PyStr.lower t in
  st <- subscript "subtitle" (subtitle kalshi_market) ;;
  let subtitle := PyStr.lower st in
  let team_name_lower := PyStr.lower team_name in
  if (negb (PyStr.contains team_name_lower title)
      && negb (PyStr.contains team_name_lower subtitle))%bool
  then Ok false
  else
    let spread_str := PyFormat.repr (abs spread) in
    let spread_indicators :=
      if ltb zero spread then plus_indicators else minus_indicators in
    Ok (existsb
          (fun indicator =>
             (PyStr.contains indicator subtitle
              && PyStr.contains spread_str subtitle)%bool)
          spread_indicators).

Definition _compare_spread_odds (self : OddsComparator)
  (match_ : sportsbook_match) (sportsbook : string) (team : string)
  (spread : float) (odds : Z) (kalshi_markets : list kalshi_market)
  : result (list opportunity) :=
  sportsbook_prob <- OddsConverter.american_to_probability odds ;;
  team_name <- match_getitem match_ (team ++ "_team") ;;
  for_extend
    (fun kalshi_market =>
       matching <- _is_matching_spread_market self kalshi_market team_name spread ;;
       if matching : bool then
         kalshi_price <- subscript "yes_ask" (yes_ask kalshi_market) ;;
         kalshi_prob <- OddsConverter.kalshi_price_to_probability kalshi_price ;;
         let edge := abs (sub sportsbook_prob kalshi_prob) in
         if leb (threshold self) edge then
           home <- match_getitem match_ "home_team" ;;
           away <- match_getitem match_ "away_team" ;;
           sportsbook_rounded <- round_ndigits sportsbook_prob 2 ;;
           contract <- subscript "ticker" (ticker kalshi_market) ;;
           kalshi_rounded <- round_ndigits kalshi_prob 2 ;;
           edge_rounded <- round_ndigits edge 2 ;;
           Ok [ {| match_name := home ++ " vs " ++ away;
                   sportsbook := sportsbook;
                   sportsbook_market :=
                     team_name ++ " " ++ PyFormat.format_plus_g spread;
                   sportsbook_odds := odds;
                   sportsbook_implied_prob := sportsbook_rounded;
                   kalshi_contract := contract;
                   kalshi_price := kalshi_price;
                   kalshi_implied_prob := kalshi_rounded;
                   edge_percentage := edge_rounded |} ]
         else Ok []
       else Ok [])
    kalshi_markets.

Definition _find_matching_kalshi_markets (self : OddsComparator)
  (match_ : sportsbook_match) (kalshi_markets : list kalshi_market)
  : result (list kalshi_market) :=
  h <- match_getitem match_ "home_team" ;;
  let home_team := PyStr.lower h in
  a <- match_getitem match_ "away_team" ;;
  let away_team := PyStr.lower a in
  for_extend
    (fun market =>
       t <- subscript "title" (title market) ;;
       let title := PyStr.lower t in
       st <- subscript "subtitle" (subtitle market) ;;
       let subtitle := PyStr.lower st in
       if ((PyStr.contains home_team title || PyStr.contains home_team subtitle)
           && (PyStr.contains away_team title || PyStr.contains away_team subtitle))%bool
       then Ok [market]
       else Ok [])
    kalshi_markets.

(** The body of the loop over [match['markets']]. *)
Definition compare_market (self : OddsComparator) (match_ : sportsbook_match)
  (sportsbook_name : string) (match_kalshi_markets : list kalshi_market)
  (market : spread_market) : result (list opportunity) :=
  ty <- subscript "type" (type market) ;;
  if String.eqb ty "spread" then
    hs <- subscript "home_spread" (home_spread market) ;;
    ho <- subscript "home_odds" (home_odds market) ;;
    home_opportunities <-
      _compare_spread_odds self match_ sportsbook_name "home" hs ho
        match_kalshi_markets ;;
    aws <- subscript "away_spread" (away_spread market) ;;
    awo <- subscript "away_odds" (away_odds market) ;;
    away_opportunities <-
      _compare_spread_odds self match_ sportsbook_name "away" aws awo
        match_kalshi_markets ;;
    Ok (home_opportunities ++ away_opportunities)
  else Ok [].

(** The body of the loop over the matches of one sportsbook. *)
Definition compare_match (self : OddsComparator)
  (kalshi_markets : list kalshi_market) (sportsbook_name : string)
  (match_ : sportsbook_match) : result (list opportunity) :=
  match_kalshi_markets <- _find_matching_kalshi_markets self match_ kalshi_markets ;;
  match match_kalshi_markets with
  | [] => Ok []
  | _ :: _ =>
      ms <- subscript "markets" (markets match_) ;;
      for_extend
        (compare_market self match_ sportsbook_name match_kalshi_markets) ms
  end.

(** The opportunities in the order they are appended, before the sort. *)
Definition collect (self : OddsComparator)
  (sportsbook_data : list (string * list sportsbook_match))
  (kalshi_markets : list kalshi_market) : result (list opportunity) :=
  for_extend
    (fun item : string * list sportsbook_match =>
       let (sportsbook_name, matches) := item in
       for_extend (compare_match self kalshi_markets sportsbook_name) matches)
    sportsbook_data.

Definition find_opportunities (self : OddsComparator)
  (sportsbook_data : list (string * list sportsbook_match))
  (kalshi_markets : list kalshi_market) : result (list opportunity) :=
  opportunities <- collect self sportsbook_data kalshi_markets ;;
  Ok (sort_reverse edge_percentage opportunities).

End OddsComparator.

(** * Properties

    First the definitions the statements use, then the lemmas, then one
    theorem for each claim. *)

Import PyFloat OddsConverter OddsComparator.

(** ** Definitions of the statements *)

(** [P] holds on the [n] integers from [lo] on. *)
Fixpoint all_from (n : nat) (lo : Z) (P : Z -> bool) : bool :=
  match n with
  | O => true
  | S n' => (P lo && all_from n' (lo + 1) P)%bool
  end.

(** American odds to decimal odds and back. *)
Definition round_trip (a : Z) : result Z :=
  d <- american_to_decimal a ;;
  decimal_to_american d.

Definition round_trip_exact (a : Z) : bool :=
  match round_trip a with
  | Ok b => a =? b
  | Raise _ => false
  end.

(** The probability of [a] exists and lies strictly between 0 and 100. *)
Definition in_open_0_100 (a : Z) : bool :=
  match american_to_probability a with
  | Ok p => (ltb zero p && ltb p f100)%bool
  | Raise _ => false
  end.

(** Price to probability and back, on one price. *)
Definition price_identity (p : Z) : bool :=
  match kalshi_price_to_probability p with
  | Ok f =>
      (eq_int f p &&
       match probability_to_kalshi_price f with
       | Ok q => q =? p
       | Raise _ => false
       end)%bool
  | Raise _ => false
  end.

(** Two characters that are the same, or the capital and the small
    form of one of the 26 letters: a capital letter has a code from 65
    to 90, and its small form the code 32 higher. *)
Definition same_letter (c d : ascii) : bool :=
  let m := nat_of_ascii c in
  let n := nat_of_ascii d in
  (Nat.eqb m n
   || (Nat.leb 65 m && Nat.leb m 90 && Nat.eqb n (m + 32))
   || (Nat.leb 65 n && Nat.leb n 90 && Nat.eqb m (n + 32)))%bool.

(** Two texts of the same length whose characters are the same letters. *)
Fixpoint same_text (s t : string) : bool :=
  match s, t with
  | EmptyString, EmptyString => true
  | String c s', String d t' => (same_letter c d && same_text s' t')%bool
  | _, _ => false
  end.

(** [needle] appears in [hay] case-insensitively: a part of [hay] is
    [needle] up to the case of the letters. *)
Definition appears_ci (needle hay : string) : Prop :=
  exists pre mid post : string,
    hay = (pre ++ mid ++ post)%string /\ same_text needle mid = true.

(** What an emitted record says about its edge: the unrounded edge
    [abs(sportsbook_prob - kalshi_prob)] reaches the threshold, and the
    field [edge_percentage] is that edge rounded to two places. *)
Definition edge_of (self : OddsComparator) (o : opportunity) : Prop :=
  exists sp kp : float,
    american_to_probability (sportsbook_odds o) = Ok sp /\
    kalshi_price_to_probability (kalshi_price o) = Ok kp /\
    leb (threshold self) (abs (sub sp kp)) = true /\
    round_ndigits (abs (sub sp kp)) 2 = Ok (edge_percentage o).

(** No element of [l] has a smaller key than its successor. *)
Fixpoint no_ascent {A : Type} (key : A -> float) (l : list A) : Prop :=
  match l with
  | [] => True
  | x :: l' =>
      match l' with
      | [] => True
      | y :: _ => ltb (key x) (key y) = false
      end /\ no_ascent key l'
  end.

(** The threshold invariant as the specification words it:
    [edge_percentage >= threshold] on every output record, for a
    non-negative threshold. *)
Definition threshold_invariant : Prop :=
  forall self sd kms ops,
    leb zero (threshold self) = true ->
    find_opportunities self sd kms = Ok ops ->
    forall o, In o ops -> leb (threshold self) (edge_percentage o) = true.

(** *** The fixture of [tests/test_comparator.py] *)

Definition one_and_a_half (s : bool) : float := S754_finite s 6755399441055744 (-52).

Definition test_market (home_odds : Z) : spread_market :=
  {| type := Some "spread";
     home_spread := Some (literal (-15) 1);
     home_odds := Some home_odds;
     away_spread := Some (literal 15 1);
     away_odds := Some (-110) |}.

Definition test_match (markets : option (list spread_market)) : sportsbook_match :=
  {| match_id := Some "match_1";
     home_team := Some "Team A";
     away_team := Some "Team B";
     start_time := Some "2023-12-01T12:00:00Z";
     competition := Some "Test League";
     markets := markets |}.

Definition test_contract (subtitle : string) : kalshi_market :=
  {| market_id := Some "kalshi_market_1";
     ticker := Some "SOCCER-TEAMA-TEAMB-123";
     title := Some "Team A vs Team B";
     subtitle := Some subtitle;
     yes_bid := Some 42;
     yes_ask := Some 45;
     no_bid := Some 55;
     no_ask := Some 58;
     last_price := Some 44;
     volume := Some 1000 |}.

Definition test_data (home_odds : Z) : list (string * list sportsbook_match) :=
  [("test_sportsbook", [test_match (Some [test_market home_odds])])].

(** The scenario of the specification: the fixture, with the away team,
    the title and the ticker left open. *)
Definition scenario_subtitle : string := "Team A to win by 2+ goals".

Definition scenario_match (away : string) : sportsbook_match :=
  {| match_id := Some "match_1";
     home_team := Some "Team A";
     away_team := Some away;
     start_time := Some "2023-12-01T12:00:00Z";
     competition := Some "Test League";
     markets := Some [test_market (-110)] |}.

Definition scenario_contract (ttl tk : string) : kalshi_market :=
  {| market_id := Some "kalshi_market_1";
     ticker := Some tk;
     title := Some ttl;
     subtitle := Some scenario_subtitle;
     yes_bid := Some 42;
     yes_ask := Some 45;
     no_bid := Some 55;
     no_ask := Some 58;
     last_price := Some 44;
     volume := Some 1000 |}.

(** A contract that names the two teams of the fixture in another
    case. *)
Definition shouting_contract : kalshi_market :=
  scenario_contract "TEAM A at team b" "SOCCER-TEAMA-TEAMB-123".

(** A run with two opportunities: home odds [-150], one contract for
    each side. *)
Definition two_contracts : list kalshi_market :=
  [test_contract "Team A -1.5 goals"; test_contract "Team B plus 1.5"].

Definition some_output : list opportunity :=
  Eval vm_compute in
    match find_opportunities (__init__ None) (test_data (-150)) two_contracts with
    | Ok ops => ops
    | Raise _ => []
    end.

Definition first_output : option opportunity := Eval vm_compute in nth_error some_output 0.
Definition second_output : option opportunity := Eval vm_compute in nth_error some_output 1.

(** A threshold with more than two decimal places: [7.3809]. *)
Definition fine_threshold : float := Eval vm_compute in literal 73809 4.

(** * More of the code

    The processing of the events of the SportsGameOdds API, which
    produces the matches the comparator reads, and further properties
    of the converter and of the comparator. *)

(** A [for] loop that updates one value: the bodies run in order, the
    first exception ends the loop. *)
Fixpoint for_state {A S : Type} (body : S -> A -> result S) (l : list A) (s : S)
  : result S :=
  match l with
  | [] => Ok s
  | x :: l' =>
      s' <- body s x ;;
      for_state body l' s'
  end.

(** ** Reading numbers from strings: [int(s)] and [float(s)] *)

Module PyParse.

(** The white space that [int] and [float] strip: space, tab, line
    feed, vertical tab, form feed, carriage return. *)
Definition is_space (c : ascii) : bool :=
  let n := nat_of_ascii c in
  ((Nat.leb 9 n && Nat.leb n 13) || Nat.eqb n 32)%bool.

Fixpoint lstrip (s : string) : string :=
  match s with
  | String c s' => if is_space c then lstrip s' else s
  | EmptyString => EmptyString
  end.

Fixpoint rstrip (s : string) : string :=
  match s with
  | EmptyString => EmptyString
  | String c s' =>
      match rstrip s' with
      | EmptyString => if is_space c then EmptyString else String c EmptyString
      | t => String c t
      end
  end.

Definition strip (s : string) : string := rstrip (lstrip s).

(** The value of a decimal digit. *)
Definition digit (c : ascii) : option Z :=
  let n := nat_of_ascii c in
  if (Nat.leb 48 n && Nat.leb n 57)%bool then Some (Z.of_nat n - 48) else None.

(** The digits after the first one: a digit, or an underscore followed
    by a digit, as long as there is one. Returns the value, the number
    of digits read so far and the rest of the string. *)
Fixpoint more_digits (s : string) (acc : Z) (count : Z) : Z * Z * string :=
  match s with
  | EmptyString => (acc, count, s)
  | String c s' =>
      match digit c with
      | Some d => more_digits s' (10 * acc + d) (count + 1)
      | None =>
          if Ascii.eqb c "_" then
            match s' with
            | String c' s'' =>
                match digit c' with
                | Some d => more_digits s'' (10 * acc + d) (count + 1)
                | None => (acc, count, s)
                end
            | EmptyString => (acc, count, s)
            end
          else (acc, count, s)
      end
  end.

(** A run of digits with single underscores between them, at the start
    of [s]; [acc] and [count] continue an earlier run. *)
Definition digits_from (s : string) (acc : Z) (count : Z) : option (Z * Z * string) :=
  match s with
  | String c s' =>
      match digit c with
      | Some d => Some (more_digits s' (10 * acc + d) (count + 1))
      | None => None
      end
  | EmptyString => None
  end.

(** An optional sign: [true] for ["-"]. *)
Definition sign_of (s : string) : bool * string :=
  match s with
  | String c s' =>
      if Ascii.eqb c "-" then (true, s')
      else if Ascii.eqb c "+" then (false, s')
      else (false, s)
  | EmptyString => (false, s)
  end.

(** The default of [sys.get_int_max_str_digits()]. *)
Definition max_str_digits : Z := 4300.

(** [int(s)]: a text of more than [max_str_digits] digits is refused. *)
Definition int_of_str (s : string) : result Z :=
  let (neg, t) := sign_of (strip s) in
  match digits_from t 0 0 with
  | Some (n, count, EmptyString) =>
      if max_str_digits <? count then Raise ValueError
      else Ok (if neg then - n else n)
  | _ => Raise ValueError
  end.

(** The exponent part: nothing, or [e] or [E], an optional sign and
    digits, up to the end of the string. *)
Definition exponent_of (s : string) : option Z :=
  match s with
  | EmptyString => Some 0
  | String c s' =>
      if (Ascii.eqb c "e" || Ascii.eqb c "E")%bool then
        let (neg, t) := sign_of s' in
        match digits_from t 0 0 with
        | Some (n, _, EmptyString) => Some (if neg then - n else n)
        | _ => None
        end
      else None
  end.

(** The digits, the number of digits after the point and the exponent
    of an unsigned decimal number. *)
Definition decimal_of (s : string) : option (Z * Z * Z) :=
  match s with
  | String "." s' =>
      match digits_from s' 0 0 with
      | Some (n, count, rest) =>
          match exponent_of rest with
          | Some e => Some (n, count, e)
          | None => None
          end
      | None => None
      end
  | _ =>
      match digits_from s 0 0 with
      | Some (n, _, String "." rest) =>
          let '(n', count, rest') :=
            match digits_from rest n 0 with
            | Some r => r
            | None => (n, 0, rest)
            end in
          match exponent_of rest' with
          | Some e => Some (n', count, e)
          | None => None
          end
      | Some (n, _, rest) =>
          match exponent_of rest with
          | Some e => Some (n, 0, e)
          | None => None
          end
      | None => None
      end
  end.

(** The double nearest to [n * 10^k], for [0 <= n]. Beyond [10^400] it
    is the infinity and below [10^-400] it is zero, whatever the digits:
    the powers of ten are computed only between the two. *)
Definition nearest_double (n k : Z) : PyFloat.float :=
  if n =? 0 then S754_zero false
  else if 400 <? k then S754_infinity false
  else if k + Z.of_nat (String.length (PyStr.of_int n)) <? -400 then S754_zero false
  else PyFormat.read_decimal n k.

(** [float(s)] *)
Definition float_of_str (s : string) : result PyFloat.float :=
  let (neg, t) := sign_of (strip s) in
  let named := PyStr.lower t in
  if (String.eqb named "inf" || String.eqb named "infinity")%bool
  then Ok (S754_infinity neg)
  else if String.eqb named "nan" then Ok S754_nan
  else
    match decimal_of t with
    | Some (n, count, e) =>
        let x := nearest_double n (e - count) in
        Ok (if neg then SFopp x else x)
    | None => Raise ValueError
    end.

End PyParse.

(** ** [data_collection/sportsgameodds.py]

    The events are the decoded JSON of the API. A key whose value is
    only passed on or compared ([id], [startTime], [marketType],
    [name]) is an [option]: [.get] gives [None] for an absent key as
    for a null. A key whose value the code calls [.get] on or iterates
    ([homeTeam], [awayTeam], [competition], [markets], [outcomes]) is a
    [json_field]: the default of [.get] stands in for an absent key
    only, and a null raises. The handicap and the price of an outcome are
    JSON scalars of any type. *)

Module SportsGameOddsClient.

Import PyFloat OddsComparator.

Inductive json_scalar : Type :=
| JNull
| JBool (b : bool)
| JInt (n : Z)
| JFloat (x : float)
| JStr (s : string).

(** A key whose value is an object or a list. *)
Inductive json_field (A : Type) : Type :=
| Absent
| Null
| Value (a : A).

Arguments Absent {A}.
Arguments Null {A}.
Arguments Value {A} a.

Record raw_outcome : Type := {
  outcome_name : option string;
  handicap : json_scalar;
  price : json_scalar
}.

Record raw_market : Type := {
  marketType : option string;
  outcomes : json_field (list raw_outcome)
}.

(** The objects under [homeTeam], [awayTeam] and [competition]. *)
Record named : Type := { name : option string }.

Record raw_event : Type := {
  event_id : option string;
  homeTeam : json_field named;
  awayTeam : json_field named;
  startTime : option string;
  event_competition : json_field named;
  event_markets : json_field (list raw_market)
}.

(** A processed match: its six keys are always there; [None] is the
    Python value [None]. *)
Record processed_match : Type := {
  pm_id : option string;
  pm_home_team : option string;
  pm_away_team : option string;
  pm_start_time : option string;
  pm_competition : option string;
  pm_markets : list spread_market
}.

(** [event.get(key, {}).get('name')]: [None] has no [get]. *)
Definition get_name (value : json_field named) : result (option string) :=
  match value with
  | Absent => Ok None
  | Null => Raise AttributeError
  | Value obj => Ok (name obj)
  end.

(** The list that [for x in d.get(key, [])] runs over: [None] is not
    iterable. *)
Definition get_list {A : Type} (value : json_field (list A)) : result (list A) :=
  match value with
  | Absent => Ok []
  | Null => Raise TypeError
  | Value l => Ok l
  end.

(** [a == b] on two values that are strings or [None]. *)
Definition value_eqb (a b : option string) : bool :=
  match a, b with
  | Some x, Some y => String.eqb x y
  | None, None => true
  | _, _ => false
  end.

(** The odds of a price: lines 116 to 128. A [bool] is an [int] for
    [isinstance]. *)
Definition odds_of_price (price : json_scalar) : result Z :=
  match price with
  | JStr s =>
      if PyStr.startswith "-" s then PyParse.int_of_str s
      else if PyStr.startswith "+" s then PyParse.int_of_str (PyStr.drop 1 s)
      else Ok 0
  | JInt n =>
      x <- PyFloat.of_int n ;;
      OddsConverter.decimal_to_american x
  | JBool b =>
      OddsConverter.decimal_to_american
        (if b then OddsConverter.f1 else S754_zero false)
  | JFloat x => OddsConverter.decimal_to_american x
  | JNull => Ok 0
  end.

(** [float(handicap) if handicap else 0.0] *)
Definition spread_of_handicap (handicap : json_scalar) : result float :=
  match handicap with
  | JNull => Ok (S754_zero false)
  | JBool b => Ok (if b then OddsConverter.f1 else S754_zero false)
  | JInt n => if n =? 0 then Ok (S754_zero false) else PyFloat.of_int n
  | JFloat x => if eqb x (S754_zero false) then Ok (S754_zero false) else Ok x
  | JStr s =>
      if String.eqb s "" then Ok (S754_zero false) else PyParse.float_of_str s
  end.

(** The body of the loop over the outcomes of one market. *)
Definition process_outcome (home_team away_team : option string)
  (spread_market : spread_market) (outcome : raw_outcome)
  : result OddsComparator.spread_market :=
  let team_name := outcome_name outcome in
  odds <- odds_of_price (price outcome) ;;
  if value_eqb team_name home_team then
    spread <- spread_of_handicap (handicap outcome) ;;
    Ok {| type := type spread_market;
          home_spread := Some spread;
          home_odds := Some odds;
          away_spread := away_spread spread_market;
          away_odds := away_odds spread_market |}
  else if value_eqb team_name away_team then
    spread <- spread_of_handicap (handicap outcome) ;;
    Ok {| type := type spread_market;
          home_spread := home_spread spread_market;
          home_odds := home_odds spread_market;
          away_spread := Some spread;
          away_odds := Some odds |}
  else Ok spread_market.

Definition has_key {A : Type} (field : option A) : bool :=
  match field with Some _ => true | None => false end.

(** The body of the loop over the markets of one event. *)
Definition process_market (home_team away_team : option string)
  (market : raw_market) : result (list OddsComparator.spread_market) :=
  if value_eqb (marketType market) (Some "SPREAD") then
    raw_outcomes <- get_list (outcomes market) ;;
    spread_market <-
      for_state (process_outcome home_team away_team) raw_outcomes
        {| type := Some "spread";
           home_spread := None; home_odds := None;
           away_spread := None; away_odds := None |} ;;
    if (has_key (home_spread spread_market)
        && has_key (away_spread spread_market))%bool
    then Ok [spread_market]
    else Ok []
  else Ok [].

(** The body of the loop over the events: the dictionary of the
    match, then the markets. *)
Definition process_event (event : raw_event) : result (list processed_match) :=
  home_team <- get_name (homeTeam event) ;;
  away_team <- get_name (awayTeam event) ;;
  competition <- get_name (event_competition event) ;;
  raw_markets <- get_list (event_markets event) ;;
  markets <- for_extend (process_market home_team away_team) raw_markets ;;
  match markets with
  | [] => Ok []
  | _ :: _ =>
      Ok [ {| pm_id := event_id event;
              pm_home_team := home_team;
              pm_away_team := away_team;
              pm_start_time := startTime event;
              pm_competition := competition;
              pm_markets := markets |} ]
  end.

Definition _process_matches (events : list raw_event)
  : result (list processed_match) :=
  for_extend process_event events.

(** The processed match as the comparator reads it: the comparator
    subscripts [home_team], [away_team] and [markets] only, and the
    reading is exact for a match whose two team names are strings. *)
Definition as_match (m : processed_match) : sportsbook_match :=
  {| match_id := pm_id m;
     home_team := pm_home_team m;
     away_team := pm_away_team m;
     start_time := pm_start_time m;
     competition := pm_competition m;
     markets := Some (pm_markets m) |}.

End SportsGameOddsClient.

Import SportsGameOddsClient.

(** ** Definitions of the further statements *)

(** Where an emitted record comes from. *)
Definition provenance (self : OddsComparator)
  (sd : list (string * list sportsbook_match)) (kms : list kalshi_market)
  (o : opportunity) : Prop :=
  exists sb ms m mks mk c home away team_name spread,
    In (sb, ms) sd /\ In m ms /\
    home_team m = Some home /\ away_team m = Some away /\
    markets m = Some mks /\ In mk mks /\ type mk = Some "spread" /\
    ((team_name = home /\ home_spread mk = Some spread /\
      home_odds mk = Some (sportsbook_odds o)) \/
     (team_name = away /\ away_spread mk = Some spread /\
      away_odds mk = Some (sportsbook_odds o))) /\
    In c kms /\
    _is_matching_spread_market self c team_name spread = Ok true /\
    ticker c = Some (kalshi_contract o) /\
    yes_ask c = Some (kalshi_price o) /\
    sportsbook o = sb /\
    match_name o = (home ++ " vs " ++ away)%string /\
    sportsbook_market o = (team_name ++ " " ++ PyFormat.format_plus_g spread)%string.

(** The number of entries of [markets] over all the matches. *)
Definition count_markets (sd : list (string * list sportsbook_match)) : nat :=
  list_sum
    (map (fun item : string * list sportsbook_match =>
            list_sum
              (map (fun m => match markets m with
                             | Some mks => List.length mks
                             | None => O
                             end) (snd item)))
       sd).

(** [match_] with another list under [markets]. *)
Definition with_markets (match_ : sportsbook_match) (mks : list spread_market)
  : sportsbook_match :=
  {| match_id := match_id match_;
     home_team := home_team match_;
     away_team := away_team match_;
     start_time := start_time match_;
     competition := competition match_;
     markets := Some mks |}.

(** The place of a float in the order of [SFcompare]: the class, then
    the exponent, then the significand. *)
Definition rank (x : float) : option (Z * Z * Z) :=
  match x with
  | S754_nan => None
  | S754_infinity s => Some (if s then -2 else 2, 0, 0)
  | S754_zero _ => Some (0, 0, 0)
  | S754_finite s m e => if s then Some (-1, - e, Zneg m) else Some (1, e, Zpos m)
  end.

Definition rank_compare (a b : Z * Z * Z) : comparison :=
  let '(a1, a2, a3) := a in
  let '(b1, b2, b3) := b in
  match a1 ?= b1 with
  | Eq => match a2 ?= b2 with
          | Eq => a3 ?= b3
          | c => c
          end
  | c => c
  end.

(** The float [50.0]. *)
Definition f50 : float := Eval vm_compute in literal 50 0.

(** On which side of 50 the probability of [a] lies. *)
Definition side_of_50 (a : Z) : bool :=
  match american_to_probability a with
  | Ok p =>
      match Z.abs a ?= 100 with
      | Eq => PyFormat.same p f50
      | Gt => if a >? 0 then ltb p f50 else ltb f50 p
      | Lt => if a >? 0 then ltb f50 p else ltb p f50
      end
  | Raise _ => false
  end.

(** The round trip gives [a] back, or the integer next to it toward 0. *)
Definition round_trip_within_one (a : Z) : bool :=
  match round_trip a with
  | Ok b => if a >? 0 then ((b =? a) || (b =? a - 1))%bool
            else ((b =? a) || (b =? a + 1))%bool
  | Raise _ => false
  end.

(** A tie between two prices goes to the even one. *)
Definition tie_to_even (n : Z) : bool :=
  match probability_to_kalshi_price (quotient (2 * n + 1) 2) with
  | Ok q => q =? (if Z.even n then n else n + 1)
  | Raise _ => false
  end.

(** A spread market with its five keys. *)
Definition complete (mk : spread_market) : Prop :=
  type mk = Some "spread" /\
  home_spread mk <> None /\ home_odds mk <> None /\
  away_spread mk <> None /\ away_odds mk <> None.

(** The result is not a [KeyError]. *)
Definition no_key_error {A : Type} (r : result A) : Prop :=
  match r with
  | Raise (KeyError _) => False
  | _ => True
  end.


Definition whole_price_read (n : Z) : bool :=
  match odds_of_price (JInt n) with
  | Ok k => k =? 100 * (n - 1)
  | Raise _ => false
  end.

Definition negative_price_read (n : Z) : bool :=
  match odds_of_price (JInt n) with
  | Ok k => k =? 0
  | Raise _ => false
  end.

(** *** Further fixtures *)

(** A market of another type, without odds. *)
Definition moneyline_market : spread_market :=
  {| type := Some "moneyline";
     home_spread := None; home_odds := None;
     away_spread := None; away_odds := None |}.

(** One event of the API: a spread market with both sides, the home
    price given by [home_price]. *)
Definition test_outcomes (home_price : json_scalar) : list raw_outcome :=
  [ {| outcome_name := Some "Team A";
       handicap := JFloat (literal (-15) 1);
       price := home_price |};
    {| outcome_name := Some "Team B";
       handicap := JStr "+1.5";
       price := JStr "-110" |} ].

Definition test_event (market_type : string) (home_price : json_scalar) : raw_event :=
  {| event_id := Some "event_1";
     homeTeam := Value {| name := Some "Team A" |};
     awayTeam := Value {| name := Some "Team B" |};
     startTime := Some "2023-12-01T12:00:00Z";
     event_competition := Value {| name := Some "Test League" |};
     event_markets :=
       Value [ {| marketType := Some market_type;
                  outcomes := Value (test_outcomes home_price) |} ] |}.

Definition processed_output : list processed_match :=
  Eval vm_compute in
    match _process_matches [test_event "SPREAD" (JStr "-110")] with
    | Ok ms => ms
    | Raise _ => []
    end.

(** ** Lemmas *)

(** *** The exception monad and the loops *)

Lemma bind_ok {A B : Type} (c : result A) (k : A -> result B) (b : B) :
  bind c k = Ok b -> exists a, c = Ok a /\ k a = Ok b.
Proof. destruct c as [a|e]; simpl; [eauto|discriminate]. Qed.

Ltac bind_inv H :=
  let a := fresh "v" in
  let E := fresh "E" in
  apply bind_ok in H as (a & E & H).

Lemma for_extend_app {A B : Type} (body : A -> result (list B)) (l1 l2 : list A) :
  for_extend body (l1 ++ l2) =
  (a <- for_extend body l1 ;; b <- for_extend body l2 ;; Ok (a ++ b)).
Proof.
  induction l1 as [|x l1 IH]; simpl.
  - destruct (for_extend body l2); reflexivity.
  - destruct (body x) as [out|e]; simpl; [|reflexivity].
    rewrite IH. destruct (for_extend body l1) as [a|e]; simpl; [|reflexivity].
    destruct (for_extend body l2) as [b|e]; simpl; [|reflexivity].
    now rewrite app_assoc.
Qed.

Lemma for_extend_skip {A B : Type} (body : A -> result (list B)) (x : A) (l1 l2 : list A) :
  body x = Ok [] ->
  for_extend body (l1 ++ x :: l2) = for_extend body (l1 ++ l2).
Proof.
  intros Hx. rewrite !for_extend_app. simpl. rewrite Hx. simpl.
  destruct (for_extend body l1) as [a|e]; simpl; [|reflexivity].
  destruct (for_extend body l2) as [b|e]; reflexivity.
Qed.

Lemma for_extend_Forall {A B : Type} (P : B -> Prop) (body : A -> result (list B)) (l : list A) :
  (forall x out, In x l -> body x = Ok out -> Forall P out) ->
  forall outs, for_extend body l = Ok outs -> Forall P outs.
Proof.
  induction l as [|x l IH]; intros Hbody outs Hrun; simpl in Hrun.
  - injection Hrun as <-. constructor.
  - apply bind_ok in Hrun as (out & Hout & Hrun).
    apply bind_ok in Hrun as (rest & Hrest & Hrun).
    injection Hrun as <-. apply Forall_app. split.
    + apply (Hbody x); [now left|exact Hout].
    + apply IH; [|exact Hrest]. intros y o Hy. apply Hbody. now right.
Qed.

Lemma all_from_spec (P : Z -> bool) (n : nat) :
  forall lo, all_from n lo P = true ->
  forall a, lo <= a < lo + Z.of_nat n -> P a = true.
Proof.
  induction n as [|n IH]; intros lo Hall a Ha.
  - simpl in Ha. lia.
  - cbn [all_from] in Hall. apply andb_prop in Hall as [Hlo Hrest].
    destruct (Z.eq_dec a lo) as [->|Hne]; [exact Hlo|].
    apply (IH (lo + 1) Hrest). lia.
Qed.

(** *** Comparisons of floats *)

Lemma SFcompare_swap (x y : float) :
  SFcompare y x = option_map CompOpp (SFcompare x y).
Proof.
  destruct x as [sx|sx| |sx mx ex], y as [sy|sy| |sy my ey]; simpl;
    try reflexivity;
    try (destruct sx; reflexivity); try (destruct sy; reflexivity);
    try (destruct sx, sy; reflexivity).
  destruct sx, sy; simpl; try reflexivity;
    rewrite (Z.compare_antisym ex ey); destruct (ex ?= ey); simpl; try reflexivity;
    change (Pos.compare_cont Eq my mx) with (Pos.compare my mx);
    change (Pos.compare_cont Eq mx my) with (Pos.compare mx my);
    rewrite (Pos.compare_antisym mx my); destruct (mx ?= my)%positive; reflexivity.
Qed.

Lemma ltb_asym (x y : float) : ltb x y = true -> ltb y x = false.
Proof.
  unfold ltb, SFltb. rewrite (SFcompare_swap x y).
  destruct (SFcompare x y) as [[]|]; simpl; congruence.
Qed.

Lemma leb_not_nan (x y : float) : leb x y = true -> is_nan x = false /\ is_nan y = false.
Proof.
  unfold leb, SFleb. destruct x, y; simpl; try discriminate; auto.
Qed.

Lemma not_ltb_leb (x y : float) :
  is_nan x = false -> is_nan y = false -> ltb x y = false -> leb y x = true.
Proof.
  intros Hx Hy. unfold ltb, leb, SFltb, SFleb. rewrite (SFcompare_swap x y).
  destruct x, y; try discriminate;
    (destruct (SFcompare _ _) as [[]|] eqn:E; simpl; try congruence; try reflexivity);
    simpl in E; try discriminate.
Qed.

(** *** No rounding step makes a NaN *)

Lemma shr_1_nonneg (mrs : shr_record) : 0 <= shr_m mrs -> 0 <= shr_m (shr_1 mrs).
Proof.
  destruct mrs as [m r s]. simpl. destruct m as [|p|p]; simpl; try lia.
  - destruct p; simpl; lia.
Qed.

Lemma iter_pos_shr_1_nonneg (p : positive) :
  forall mrs, 0 <= shr_m mrs -> 0 <= shr_m (iter_pos shr_1 p mrs).
Proof.
  induction p as [p IH|p IH|]; intros mrs H; simpl.
  - apply IH, IH, shr_1_nonneg, H.
  - apply IH, IH, H.
  - apply shr_1_nonneg, H.
Qed.

Lemma shr_fexp_nonneg (m e : Z) (l : location) :
  0 <= m -> 0 <= shr_m (fst (shr_fexp prec emax m e l)).
Proof.
  intros Hm. unfold shr_fexp, shr.
  assert (H0 : 0 <= shr_m (shr_record_of_loc m l)) by (destruct l as [|[]]; exact Hm).
  destruct (fexp prec emax (Zdigits2 m + e) - e) as [|p|p]; simpl; try exact H0.
  apply iter_pos_shr_1_nonneg, H0.
Qed.

Lemma round_nearest_even_nonneg (m : Z) (l : location) :
  0 <= m -> 0 <= round_nearest_even m l.
Proof.
  intros Hm. destruct l as [|[]]; simpl; try lia. destruct (Z.even m); lia.
Qed.

Lemma binary_round_aux_not_nan (s : bool) (m e : Z) (l : location) :
  0 <= m -> is_nan (binary_round_aux prec emax s m e l) = false.
Proof.
  intros Hm. unfold binary_round_aux.
  pose proof (shr_fexp_nonneg m e l Hm) as H1.
  destruct (shr_fexp prec emax m e l) as [mrs' e'] eqn:E1. simpl in H1.
  pose proof (shr_fexp_nonneg _ e' loc_Exact
                (round_nearest_even_nonneg _ (loc_of_shr_record mrs') H1)) as H2.
  destruct (shr_fexp prec emax _ e' loc_Exact) as [mrs'' e''] eqn:E2. simpl in H2.
  destruct (shr_m mrs'') as [|p|p]; try reflexivity.
  - destruct (e'' <=? emax - prec); reflexivity.
  - lia.
Qed.

Lemma SFdiv_core_nonneg (m1 m2 : positive) (e1 e2 : Z) :
  0 <= fst (fst (SFdiv_core_binary prec emax (Zpos m1) e1 (Zpos m2) e2)).
Proof.
  unfold SFdiv_core_binary.
  set (s := e1 - e2 - _).
  set (m' := match s with Z0 => _ | Zpos _ => _ | Zneg _ => _ end).
  assert (Hm' : 0 <= m').
  { subst m'. destruct s; try lia. apply Z.shiftl_nonneg. lia. }
  pose proof (Z_div_mod m' (Zpos m2) eq_refl) as H.
  destruct (Z.div_eucl m' (Zpos m2)) as [q r]. simpl. destruct H as [H1 H2]. nia.
Qed.

Lemma quotient_not_nan (a b : Z) : b <> 0 -> is_nan (quotient a b) = false.
Proof.
  intros Hb. unfold quotient.
  destruct b as [|pb|pb]; [congruence| |];
    destruct a as [|pa|pa]; simpl; try reflexivity.
  all: pose proof (SFdiv_core_nonneg pa pb 0 0) as H;
    destruct (SFdiv_core_binary prec emax (Zpos pa) 0 (Zpos pb) 0) as [[mz ez] lz];
    simpl in H; apply binary_round_aux_not_nan, H.
Qed.

Lemma round_ndigits_not_nan (x r : float) (ndigits : Z) :
  0 <= ndigits ->
  is_nan x = false -> round_ndigits x ndigits = Ok r -> is_nan r = false.
Proof.
  intros Hd Hx. unfold round_ndigits. destruct x as [s|s| |s m e]; try discriminate.
  - intros H. injection H as <-. reflexivity.
  - intros H. injection H as <-. reflexivity.
  - set (n := match e with Zneg _ => _ | _ => _ end).
    assert (Hn : is_nan (quotient n (10 ^ ndigits)) = false).
    { apply quotient_not_nan. pose proof (Z.pow_pos_nonneg 10 ndigits). lia. }
    destruct (is_inf (quotient n (10 ^ ndigits))); [discriminate|].
    intros H. injection H as <-.
    destruct s; [|exact Hn].
    destruct (quotient n (10 ^ ndigits)); simpl in *; congruence.
Qed.

(** *** The stable descending sort *)

Section Sort.

Context {A : Type} (key : A -> float).

Lemma insert_desc_perm (x : A) (l : list A) :
  Permutation (x :: l) (insert_desc key x l).
Proof.
  induction l as [|y l IH]; simpl; [reflexivity|].
  destruct (ltb (key x) (key y)); [|reflexivity].
  rewrite perm_swap. now apply perm_skip.
Qed.

Lemma sort_reverse_perm (l : list A) : Permutation l (sort_reverse key l).
Proof.
  induction l as [|x l IH]; simpl; [reflexivity|].
  rewrite <- insert_desc_perm. now apply perm_skip.
Qed.

Lemma insert_desc_no_ascent (x : A) (l : list A) :
  no_ascent key l -> no_ascent key (insert_desc key x l).
Proof.
  induction l as [|y l IH]; intros Hl; simpl; [auto|].
  destruct (ltb (key x) (key y)) eqn:Hxy.
  - destruct Hl as [Hy Hl]. specialize (IH Hl). split; [|exact IH].
    destruct l as [|z l]; simpl.
    + now apply ltb_asym.
    + simpl in IH. destruct (ltb (key x) (key z)); [exact Hy|now apply ltb_asym].
  - split; [exact Hxy|exact Hl].
Qed.

Lemma sort_reverse_no_ascent (l : list A) : no_ascent key (sort_reverse key l).
Proof.
  induction l as [|x l IH]; simpl; [exact I|].
  apply insert_desc_no_ascent, IH.
Qed.

Lemma no_ascent_nth (l : list A) :
  no_ascent key l ->
  forall (i : nat) (a b : A), nth_error l i = Some a -> nth_error l (S i) = Some b ->
  ltb (key a) (key b) = false.
Proof.
  induction l as [|x l IH]; intros Hl i a b Ha Hb.
  - destruct i; discriminate.
  - destruct Hl as [Hx Hl]. destruct i as [|i].
    + simpl in Ha, Hb. injection Ha as <-. destruct l as [|y l]; [discriminate|].
      simpl in Hb. injection Hb as <-. exact Hx.
    + apply (IH Hl i); assumption.
Qed.

End Sort.

(** *** Substrings up to case *)










(** *** The edges of the emitted records *)

Section Edges.

Variable self : OddsComparator.

Lemma _compare_spread_odds_edges match_ sb team spread odds kms ops :
  _compare_spread_odds self match_ sb team spread odds kms = Ok ops ->
  Forall (edge_of self) ops.
Proof.
  unfold _compare_spread_odds. intros H.
  bind_inv H. bind_inv H. revert ops H. apply for_extend_Forall.
  intros km out _ H.
  bind_inv H. destruct v1.
  - bind_inv H. bind_inv H.
    destruct (leb (threshold self) (abs (sub v v2))) eqn:Hthr.
    + do 6 bind_inv H. injection H as <-.
      constructor; [|constructor].
      exists v, v2. simpl. auto.
    + injection H as <-. constructor.
  - injection H as <-. constructor.
Qed.

Lemma compare_market_edges match_ sb kms market ops :
  compare_market self match_ sb kms market = Ok ops -> Forall (edge_of self) ops.
Proof.
  unfold compare_market. intros H. bind_inv H.
  destruct (String.eqb v "spread").
  - do 6 bind_inv H. injection H as <-. apply Forall_app. split.
    + eapply _compare_spread_odds_edges; eassumption.
    + eapply _compare_spread_odds_edges; eassumption.
  - injection H as <-. constructor.
Qed.

Lemma compare_match_edges kms sb match_ ops :
  compare_match self kms sb match_ = Ok ops -> Forall (edge_of self) ops.
Proof.
  unfold compare_match. intros H. bind_inv H. destruct v as [|c cands].
  - injection H as <-. constructor.
  - bind_inv H. revert ops H. apply for_extend_Forall.
    intros market out _. apply compare_market_edges.
Qed.

Lemma collect_edges sd kms ops :
  collect self sd kms = Ok ops -> Forall (edge_of self) ops.
Proof.
  unfold collect. revert ops. apply for_extend_Forall.
  intros [sb matches] out _. apply for_extend_Forall.
  intros match_ o _. apply compare_match_edges.
Qed.

Lemma find_opportunities_edges sd kms ops :
  find_opportunities self sd kms = Ok ops -> Forall (edge_of self) ops.
Proof.
  unfold find_opportunities. intros H. bind_inv H. injection H as <-.
  apply collect_edges in E. rewrite Forall_forall in *.
  intros o Ho. apply E.
  apply (Permutation_in o (Permutation_sym (sort_reverse_perm edge_percentage v)) Ho).
Qed.

Lemma edge_of_not_nan o : edge_of self o -> is_nan (edge_percentage o) = false.
Proof.
  intros (sp & kp & _ & _ & Hthr & Hround).
  apply leb_not_nan in Hthr as [_ Hedge].
  apply (round_ndigits_not_nan _ _ 2 ltac:(lia) Hedge Hround).
Qed.

(** A match that yields nothing can be taken out of the input. *)
Lemma skip_match kms sb match_ :
  compare_match self kms sb match_ = Ok [] ->
  forall sd1 ms1 ms2 sd2,
    find_opportunities self (sd1 ++ (sb, ms1 ++ match_ :: ms2) :: sd2) kms =
    find_opportunities self (sd1 ++ (sb, ms1 ++ ms2) :: sd2) kms.
Proof.
  intros Hm sd1 ms1 ms2 sd2. unfold find_opportunities, collect.
  rewrite !for_extend_app. cbn [for_extend].
  now rewrite (for_extend_skip _ _ ms1 ms2 Hm).
Qed.

End Edges.

(** ** The odds converter *)

(** What the tests of the repository pin for [decimal_to_american]:
    [2.0] is [+100]; [1.91] is expected to be [-110], and the code
    truncates [-109.89...] to [-109]. *)
Example decimal_to_american_2 : decimal_to_american (literal 20 1) = Ok 100.
Proof. vm_compute. reflexivity. Qed.

Example decimal_to_american_191 : decimal_to_american (literal 191 2) = Ok (-109).
Proof. vm_compute. reflexivity. Qed.

(** The truncation shows in the round trip as well: [115] comes back as
    [114], because [1.15 * 100] is [114.99999999999999]. *)
Example round_trip_115 : round_trip 115 = Ok 114.
Proof. vm_compute. reflexivity. Qed.

Lemma round_trip_exact_spec a : round_trip_exact a = true -> round_trip a = Ok a.
Proof.
  unfold round_trip_exact. destruct (round_trip a) as [b|e]; [|discriminate].
  intros H. apply Z.eqb_eq in H. now subst.
Qed.

Lemma round_trip_hundreds_checked :
  all_from (Z.to_nat 1000) 1 (fun n => round_trip_exact (100 * n)) = true.
Proof. vm_compute. reflexivity. Qed.

(** Both even-money quotes are decimal [2.0], which is read back as
    [+100], as the test of [decimal_to_american] pins it: [-100] is
    the one quote that cannot come back. *)
Lemma even_money_round_trip :
  round_trip (-100) = Ok 100 /\
  ~ (forall a : Z, a >= 100 \/ a <= -100 -> round_trip a = Ok a).
Proof.
  split; [vm_compute; reflexivity|].
  intros H. assert (Hc : round_trip (-100) = Ok (-100)) by (apply H; lia).
  vm_compute in Hc. discriminate Hc.
Qed.

(** Where every step is exact so is the round trip: the positive
    multiples of 100 up to 100000. *)
Lemma round_trip_hundreds (n : Z) :
  1 <= n <= 1000 -> round_trip (100 * n) = Ok (100 * n).
Proof.
  intros Hn. apply round_trip_exact_spec.
  apply (all_from_spec (fun n => round_trip_exact (100 * n)) _ 1
           round_trip_hundreds_checked).
  rewrite Z2Nat.id; lia.
Qed.

(** C2: the round trip is not exact, because [decimal_to_american]
    truncates with [int] where its test expects the nearest integer.
    Decimal [1.91] gives [-109], where [test_decimal_to_american]
    asserts [-110]; the decimal odds of [-110] are
    [1.9090909090909092] and come back as
    [int(-109.99999999999999)], that is [-109]; and [115] comes back
    as [114]. *)
Theorem round_trip_truncated :
  decimal_to_american (literal 191 2) = Ok (-109) /\
  american_to_decimal (-110) = Ok (literal 19090909090909092 16) /\
  round_trip (-110) = Ok (-109) /\
  round_trip 115 = Ok 114.
Proof. repeat split; vm_compute; reflexivity. Qed.

Lemma in_open_0_100_spec a :
  in_open_0_100 a = true ->
  exists p, american_to_probability a = Ok p /\
            ltb zero p = true /\ ltb p f100 = true.
Proof.
  unfold in_open_0_100. destruct (american_to_probability a) as [p|e]; [|discriminate].
  intros H. apply andb_prop in H. exists p. tauto.
Qed.

Lemma probability_checked_pos : all_from (Z.to_nat 20000) 1 in_open_0_100 = true.
Proof. vm_compute. reflexivity. Qed.

Lemma probability_checked_neg : all_from (Z.to_nat 20000) (-20000) in_open_0_100 = true.
Proof. vm_compute. reflexivity. Qed.

(** C8, as stated: the probability of every nonzero [a] is strictly
    between 0 and 100. It fails for long negative odds: at [-10^18] the
    decimal odds round to [1.0] and the probability is [100.0]. *)
Lemma probability_of_minus_1e18 :
  american_to_probability (- 10 ^ 18) = Ok f100 /\
  ~ (forall a : Z, a <> 0 ->
       exists p, american_to_probability a = Ok p /\
                 ltb zero p = true /\ ltb p f100 = true).
Proof.
  split; [vm_compute; reflexivity|].
  intros H. destruct (H (- 10 ^ 18)) as (p & Hp & _ & Hlt); [lia|].
  vm_compute in Hp. injection Hp as <-. vm_compute in Hlt. discriminate Hlt.
Qed.

(** C8, amended: for every nonzero [a] with [-20000 <= a <= 20000],
    [american_to_probability a] returns a probability strictly greater
    than 0 and strictly less than 100. *)
Theorem probability_bounds (a : Z) :
  a <> 0 -> -20000 <= a <= 20000 ->
  exists p, american_to_probability a = Ok p /\
            ltb zero p = true /\ ltb p f100 = true.
Proof.
  intros Hnz Hr. apply in_open_0_100_spec.
  destruct (Z_lt_le_dec a 0).
  - apply (all_from_spec _ _ (-20000) probability_checked_neg).
    rewrite Z2Nat.id; lia.
  - apply (all_from_spec _ _ 1 probability_checked_pos).
    rewrite Z2Nat.id; lia.
Qed.

Lemma probability_bounds_witness :
  exists p, american_to_probability (-150) = Ok p /\
            ltb zero p = true /\ ltb p f100 = true.
Proof. apply (probability_bounds (-150)); lia. Defined.

Lemma price_identity_checked : all_from (Z.to_nat 101) 0 price_identity = true.
Proof. vm_compute. reflexivity. Qed.

(** C9: for every integer [p] in [0, 100], [kalshi_price_to_probability p]
    is [float(p)], a float that equals [p], and
    [probability_to_kalshi_price] of that float is [p]. *)
Theorem kalshi_price_identity (p : Z) :
  0 <= p <= 100 ->
  kalshi_price_to_probability p = of_int p /\
  exists f, kalshi_price_to_probability p = Ok f /\
            eq_int f p = true /\
            probability_to_kalshi_price f = Ok p.
Proof.
  intros Hp. split; [reflexivity|].
  assert (H : price_identity p = true).
  { apply (all_from_spec _ _ 0 price_identity_checked).
    rewrite Z2Nat.id; lia. }
  unfold price_identity in H.
  destruct (kalshi_price_to_probability p) as [f|e]; [|discriminate].
  apply andb_prop in H as [Heq Hback].
  exists f. split; [reflexivity|]. split; [exact Heq|].
  destruct (probability_to_kalshi_price f) as [q|e]; [|discriminate].
  apply Z.eqb_eq in Hback. now subst.
Qed.

Lemma kalshi_price_identity_witness :
  kalshi_price_to_probability 65 = of_int 65 /\
  exists f, kalshi_price_to_probability 65 = Ok f /\
            eq_int f 65 = true /\
            probability_to_kalshi_price f = Ok 65.
Proof. apply (kalshi_price_identity 65). lia. Defined.

(** ** The comparator *)

Lemma some_output_run :
  find_opportunities (__init__ None) (test_data (-150)) two_contracts = Ok some_output.
Proof. vm_compute. reflexivity. Qed.

(** C1, as stated: [edge_percentage >= threshold] on every output
    record. With the threshold [7.3809], odds of [-110] against a price
    of 45 give the edge [7.38095...], which passes the test; the record
    holds the rounded [7.38], which is below the threshold. *)
Lemma rounded_edge_below_threshold :
  (exists o,
     find_opportunities (__init__ (Some fine_threshold)) (test_data (-110))
       [test_contract "Team A -1.5 goals"] = Ok [o] /\
     PyFormat.repr (edge_percentage o) = "7.38" /\
     leb zero fine_threshold = true /\
     leb fine_threshold (edge_percentage o) = false) /\
  ~ threshold_invariant.
Proof.
  split.
  - eexists. split; [vm_compute; reflexivity|]. repeat split; vm_compute; reflexivity.
  - intros H.
    specialize (H (__init__ (Some fine_threshold)) (test_data (-110))
                  [test_contract "Team A -1.5 goals"]).
    vm_compute in H.
    specialize (H _ eq_refl eq_refl _ (or_introl eq_refl)).
    discriminate H.
Qed.

(** C1, amended: for every output record of [find_opportunities], the
    unrounded edge, the absolute difference of the probability of the
    record's [sportsbook_odds] and the probability of its
    [kalshi_price], is greater than or equal to the threshold, and
    [edge_percentage] is that edge rounded to two decimal places. *)
Theorem edge_reaches_threshold self sd kms ops :
  find_opportunities self sd kms = Ok ops ->
  forall o, In o ops ->
  exists sp kp : float,
    american_to_probability (sportsbook_odds o) = Ok sp /\
    kalshi_price_to_probability (kalshi_price o) = Ok kp /\
    leb (threshold self) (abs (sub sp kp)) = true /\
    round_ndigits (abs (sub sp kp)) 2 = Ok (edge_percentage o).
Proof.
  intros H o Ho. apply find_opportunities_edges in H.
  rewrite Forall_forall in H. exact (H o Ho).
Qed.

Lemma edge_reaches_threshold_witness :
  match second_output with
  | Some o =>
      exists sp kp : float,
        american_to_probability (sportsbook_odds o) = Ok sp /\
        kalshi_price_to_probability (kalshi_price o) = Ok kp /\
        leb (threshold (__init__ None)) (abs (sub sp kp)) = true /\
        round_ndigits (abs (sub sp kp)) 2 = Ok (edge_percentage o)
  | None => False
  end.
Proof.
  exact (edge_reaches_threshold _ _ _ _ some_output_run _
           (or_intror (or_introl eq_refl))).
Defined.

(** C6: the list returned by [find_opportunities] is sorted
    non-increasingly by [edge_percentage]: every element's
    [edge_percentage] is greater than or equal to that of the element
    after it. *)
Theorem sorted_by_edge self sd kms ops :
  find_opportunities self sd kms = Ok ops ->
  forall (i : nat) (a b : opportunity),
    nth_error ops i = Some a -> nth_error ops (S i) = Some b ->
    leb (edge_percentage b) (edge_percentage a) = true.
Proof.
  intros H i a b Ha Hb.
  pose proof (find_opportunities_edges _ _ _ _ H) as Hedges.
  rewrite Forall_forall in Hedges.
  unfold find_opportunities in H. bind_inv H. injection H as <-.
  apply not_ltb_leb.
  - apply (edge_of_not_nan self), Hedges. eapply nth_error_In, Ha.
  - apply (edge_of_not_nan self), Hedges. eapply nth_error_In, Hb.
  - exact (no_ascent_nth edge_percentage _ (sort_reverse_no_ascent edge_percentage v)
             i a b Ha Hb).
Qed.

Lemma sorted_by_edge_witness :
  match first_output, second_output with
  | Some a, Some b => leb (edge_percentage b) (edge_percentage a) = true
  | _, _ => False
  end.
Proof.
  exact (sorted_by_edge _ _ _ _ some_output_run 0%nat _ _ eq_refl eq_refl).
Defined.
(** *** C3: the scenario of the specification *)

(** C3, as stated: the scenario emits exactly one opportunity, for the
    home side. On the fixture of the tests, with the default threshold,
    the result is the empty list. *)
Lemma scenario_one_opportunity_fails :
  find_opportunities (__init__ (Some default_threshold)) (test_data (-110))
    [test_contract scenario_subtitle] = Ok [] /\
  ~ (exists o, find_opportunities (__init__ (Some default_threshold)) (test_data (-110))
                 [test_contract scenario_subtitle] = Ok [o]).
Proof.
  split; [vm_compute; reflexivity|].
  intros (o & H). vm_compute in H. discriminate H.
Qed.

Lemma scenario_side_no_match self ttl tk team_name (s : bool) :
  _is_matching_spread_market self (scenario_contract ttl tk) team_name
    (one_and_a_half s) = Ok false.
Proof.
  unfold _is_matching_spread_market. cbn [scenario_contract title subtitle subscript bind].
  destruct (negb _ && negb _)%bool; [reflexivity|].
  f_equal. destruct s; vm_compute; reflexivity.
Qed.

Lemma scenario_side_nothing self away sb ttl tk team (s : bool) :
  team = "home" \/ team = "away" ->
  _compare_spread_odds self (scenario_match away) sb team (one_and_a_half s) (-110)
    [scenario_contract ttl tk] = Ok [].
Proof.
  intros Hteam. unfold _compare_spread_odds.
  destruct (american_to_probability (-110)) as [p|e] eqn:Hp;
    [|vm_compute in Hp; discriminate Hp].
  cbn [bind].
  assert (Hname : exists team_name,
             match_getitem (scenario_match away) (team ++ "_team") = Ok team_name).
  { destruct Hteam as [-> | ->]; eexists; reflexivity. }
  destruct Hname as (team_name & ->). cbn [bind for_extend].
  rewrite scenario_side_no_match. reflexivity.
Qed.

Lemma scenario_market self sb away ttl tk :
  compare_market self (scenario_match away) sb [scenario_contract ttl tk]
    (test_market (-110)) = Ok [].
Proof.
  unfold compare_market.
  cbn [type test_market subscript bind String.eqb Ascii.eqb Bool.eqb
       home_spread home_odds away_spread away_odds].
  change (literal (-15) 1) with (one_and_a_half true).
  change (literal 15 1) with (one_and_a_half false).
  rewrite !scenario_side_nothing by auto. reflexivity.
Qed.

Lemma scenario_candidates self away ttl tk :
  _find_matching_kalshi_markets self (scenario_match away) [scenario_contract ttl tk]
    = Ok [] \/
  _find_matching_kalshi_markets self (scenario_match away) [scenario_contract ttl tk]
    = Ok [scenario_contract ttl tk].
Proof.
  unfold _find_matching_kalshi_markets.
  cbn [match_getitem scenario_match home_team away_team
       String.eqb Ascii.eqb Bool.eqb subscript bind for_extend].
  cbn [scenario_contract title subtitle subscript bind].
  destruct (_ && _)%bool; [right|left]; reflexivity.
Qed.

(** C3, amended: the scenario emits nothing. Whatever the threshold, the
    sportsbook name, the away team, the title and the ticker: the
    subtitle does not contain ["1.5"], so neither side matches. *)
Theorem scenario_emits_nothing self sb away ttl tk :
  find_opportunities self [(sb, [scenario_match away])] [scenario_contract ttl tk]
  = Ok [].
Proof.
  unfold find_opportunities, collect. cbn [for_extend bind].
  assert (H : compare_match self [scenario_contract ttl tk] sb (scenario_match away)
              = Ok []).
  { unfold compare_match.
    destruct (scenario_candidates self away ttl tk) as [-> | ->]; [reflexivity|].
    cbn [bind]. change (markets (scenario_match away)) with (Some [test_market (-110)]).
    cbn [subscript bind for_extend]. rewrite scenario_market. reflexivity. }
  rewrite H. reflexivity.
Qed.

(** *** C4: a match without [markets] *)

(** C4, as stated: a match without [markets] never makes the call
    raise. The fixture without its [markets], against its contract,
    raises [KeyError]. *)
Lemma absent_markets_key_error :
  find_opportunities (__init__ None) [("test_sportsbook", [test_match None])]
    [test_contract scenario_subtitle] = Raise (KeyError "markets") /\
  ~ (exists ops,
       find_opportunities (__init__ None) [("test_sportsbook", [test_match None])]
         [test_contract scenario_subtitle] = Ok ops).
Proof.
  split; [vm_compute; reflexivity|].
  intros (ops & H). vm_compute in H. discriminate H.
Qed.

(** C4, amended: a match without [markets] that has no candidate
    contract is skipped, the result is the one without it; a match
    without [markets] that has a candidate contract makes
    [find_opportunities] raise [KeyError] as soon as the loops reach
    it, that is when the sportsbooks and matches before it raised
    nothing. *)
Theorem missing_markets self kms sb match_ cands :
  markets match_ = None ->
  _find_matching_kalshi_markets self match_ kms = Ok cands ->
  (cands = [] ->
   forall sd1 ms1 ms2 sd2,
     find_opportunities self (sd1 ++ (sb, ms1 ++ match_ :: ms2) :: sd2) kms =
     find_opportunities self (sd1 ++ (sb, ms1 ++ ms2) :: sd2) kms) /\
  (cands <> [] ->
   forall sd1 ms1 ms2 sd2 out1 out2,
     collect self sd1 kms = Ok out1 ->
     for_extend (compare_match self kms sb) ms1 = Ok out2 ->
     find_opportunities self (sd1 ++ (sb, ms1 ++ match_ :: ms2) :: sd2) kms =
     Raise (KeyError "markets")).
Proof.
  intros Hm Hc. split.
  - intros ->. apply skip_match. unfold compare_match. now rewrite Hc.
  - intros Hne sd1 ms1 ms2 sd2 out1 out2 H1 H2.
    unfold find_opportunities, collect in *.
    rewrite for_extend_app, H1. cbn [bind for_extend].
    rewrite for_extend_app, H2. cbn [bind for_extend].
    unfold compare_match at 1. rewrite Hc, Hm.
    destruct cands; [congruence|reflexivity].
Qed.

Lemma missing_markets_witness :
  find_opportunities (__init__ None)
    [("test_sportsbook", [test_match None])] [test_contract scenario_subtitle]
  = Raise (KeyError "markets").
Proof.
  refine (proj2 (missing_markets (__init__ None) [test_contract scenario_subtitle]
                   "test_sportsbook" (test_match None)
                   [test_contract scenario_subtitle] eq_refl eq_refl)
            _ [] [] [] [] [] [] eq_refl eq_refl).
  discriminate.
Defined.

(** *** C5: zero odds

    [sportsgameodds.py] stores [odds = 0] for a price it cannot read.
    The [else] branch of [american_to_decimal] takes the zero and
    divides by [abs(0)]. *)

(** C5: with odds of 0, [american_to_decimal], [american_to_probability]
    and [find_opportunities] raise [ZeroDivisionError]. *)
Theorem zero_odds_raise :
  american_to_decimal 0 = Raise ZeroDivisionError /\
  american_to_probability 0 = Raise ZeroDivisionError /\
  find_opportunities (__init__ None) (test_data 0) [test_contract scenario_subtitle]
  = Raise ZeroDivisionError.
Proof. repeat split; vm_compute; reflexivity. Qed.

(** *** C7: the candidates of a match *)

(** The contract that names the teams in another case is a candidate
    of the fixture's match. *)
Example shouting_contract_selected :
  _find_matching_kalshi_markets (__init__ None) (test_match (Some []))
    [shouting_contract] = Ok [shouting_contract] /\
  appears_ci "Team A" "TEAM A at team b" /\ appears_ci "Team B" "TEAM A at team b".
Proof.
  split; [vm_compute; reflexivity|]. split.
  - exists "", "TEAM A", " at team b". split; reflexivity.
  - exists "TEAM A at ", "team b", "". split; reflexivity.
Qed.



(** *** C10: a spread of zero *)

(** C10: for a spread equal to 0 the indicators are the negative ones,
    and the market matches exactly when the team is in the title or
    subtitle and the subtitle holds one of ["-"], ["minus"],
    ["less than"] and the text ["0.0"]. *)
Theorem zero_spread_is_negative self km team_name spread t st :
  eqb spread zero = true ->
  title km = Some t -> subtitle km = Some st ->
  (if ltb zero spread then plus_indicators else minus_indicators) = minus_indicators /\
  _is_matching_spread_market self km team_name spread =
  Ok ((PyStr.contains (PyStr.lower team_name) (PyStr.lower t)
       || PyStr.contains (PyStr.lower team_name) (PyStr.lower st))
      && existsb (fun indicator => PyStr.contains indicator (PyStr.lower st))
           ["-"; "minus"; "less than"]
      && PyStr.contains "0.0" (PyStr.lower st))%bool.
Proof.
  intros Hz Ht Hs.
  assert (Hsp : exists s, spread = S754_zero s).
  { destruct spread as [s|s| |s m e]; try discriminate Hz;
      [now exists s|destruct s; discriminate Hz|destruct s; discriminate Hz]. }
  destruct Hsp as (s & ->). split; [reflexivity|].
  unfold _is_matching_spread_market. rewrite Ht, Hs. cbn [subscript bind].
  change (ltb zero (S754_zero s)) with false.
  change (PyFormat.repr (abs (S754_zero s))) with "0.0".
  cbn [minus_indicators existsb].
  destruct (PyStr.contains (PyStr.lower team_name) (PyStr.lower t)),
    (PyStr.contains (PyStr.lower team_name) (PyStr.lower st)),
    (PyStr.contains "-" (PyStr.lower st)),
    (PyStr.contains "minus" (PyStr.lower st)),
    (PyStr.contains "less than" (PyStr.lower st)),
    (PyStr.contains "0.0" (PyStr.lower st)); reflexivity.
Qed.

Lemma zero_spread_is_negative_witness :
  _is_matching_spread_market (__init__ None) (test_contract "Team A +0.0 plus 0.0")
    "Team A" zero = Ok false.
Proof.
  exact (proj2 (zero_spread_is_negative (__init__ None)
                  (test_contract "Team A +0.0 plus 0.0") "Team A" zero
                  "Team A vs Team B" "Team A +0.0 plus 0.0" eq_refl eq_refl eq_refl)).
Defined.


(** * Further properties *)

(** ** The comparator *)

Ltac bind_as H x E := apply bind_ok in H as (x & E & H).

Lemma for_extend_In {A B : Type} (body : A -> result (list B)) (l : list A) :
  forall outs, for_extend body l = Ok outs ->
  forall b, In b outs -> exists x out, In x l /\ body x = Ok out /\ In b out.
Proof.
  induction l as [|x l IH]; intros outs Hrun b Hb; simpl in Hrun.
  - injection Hrun as <-. destruct Hb.
  - bind_inv Hrun. bind_inv Hrun. injection Hrun as <-.
    apply in_app_or in Hb as [Hb|Hb].
    + exists x, v. simpl. auto.
    + destruct (IH _ E0 b Hb) as (y & o & Hy & Ho & Hin). exists y, o. simpl. auto.
Qed.

Lemma for_extend_length {A B : Type} (body : A -> result (list B)) (k : A -> nat)
  (l : list A) :
  (forall x out, In x l -> body x = Ok out -> (List.length out <= k x)%nat) ->
  forall outs, for_extend body l = Ok outs ->
  (List.length outs <= list_sum (map k l))%nat.
Proof.
  induction l as [|x l IH]; intros Hk outs Hrun; simpl in Hrun.
  - injection Hrun as <-. simpl. lia.
  - bind_inv Hrun. bind_inv Hrun. injection Hrun as <-.
    rewrite length_app. simpl.
    pose proof (Hk x v (or_introl eq_refl) E).
    pose proof (IH (fun y o Hy => Hk y o (or_intror Hy)) _ E0). lia.
Qed.

Lemma for_extend_nil {A B : Type} (body : A -> result (list B)) (l : list A) :
  (forall x, In x l -> body x = Ok []) -> for_extend body l = Ok [].
Proof.
  induction l as [|x l IH]; intros H; simpl; [reflexivity|].
  rewrite (H x (or_introl eq_refl)). simpl.
  rewrite IH; [reflexivity|]. intros y Hy. apply H. now right.
Qed.

(** X1: with an empty list of contracts, and matches that all have
    their two team names, [find_opportunities] returns the empty list;
    it reads nothing else of the matches, which may lack [markets]. *)
Theorem no_contracts_no_opportunities self sd :
  (forall sb ms m, In (sb, ms) sd -> In m ms ->
     home_team m <> None /\ away_team m <> None) ->
  find_opportunities self sd [] = Ok [].
Proof.
  intros H. unfold find_opportunities, collect.
  rewrite for_extend_nil; [reflexivity|].
  intros [sb ms] Hin. apply for_extend_nil. intros m Hm.
  destruct (H sb ms m Hin Hm) as [Hh Ha].
  unfold compare_match, _find_matching_kalshi_markets, match_getitem.
  cbn [String.eqb Ascii.eqb Bool.eqb].
  destruct (home_team m); [|congruence]. destruct (away_team m); [|congruence].
  reflexivity.
Qed.

Lemma no_contracts_no_opportunities_witness :
  find_opportunities (__init__ None) (test_data (-110)) [] = Ok [].
Proof.
  apply no_contracts_no_opportunities.
  intros sb ms m [H|[]] Hm. injection H as <- <-. destruct Hm as [<-|[]].
  split; discriminate.
Defined.

Lemma candidates_incl self m kms cands :
  _find_matching_kalshi_markets self m kms = Ok cands ->
  forall c, In c cands -> In c kms.
Proof.
  unfold _find_matching_kalshi_markets. intros H c Hc.
  bind_inv H. bind_inv H.
  destruct (for_extend_In _ _ _ H c Hc) as (k & out & Hk & Hout & Hin).
  bind_inv Hout. bind_inv Hout.
  destruct (_ && _)%bool; injection Hout as <-; [|destruct Hin].
  destruct Hin as [<-|[]]. exact Hk.
Qed.

Lemma candidates_length self m kms cands :
  _find_matching_kalshi_markets self m kms = Ok cands ->
  (List.length cands <= List.length kms)%nat.
Proof.
  unfold _find_matching_kalshi_markets. intros H.
  bind_inv H. bind_inv H.
  apply (for_extend_length _ (fun _ => 1%nat)) in H.
  - assert (Hsum : list_sum (map (fun _ : kalshi_market => 1%nat) kms) = List.length kms).
    { clear. induction kms as [|k kms IH]; simpl; [reflexivity|now rewrite IH]. }
    now rewrite Hsum in H.
  - intros k out _ Hout. bind_inv Hout. bind_inv Hout.
    destruct (_ && _)%bool; injection Hout as <-; simpl; lia.
Qed.

Lemma match_getitem_home m tn :
  match_getitem m ("home" ++ "_team") = Ok tn -> home_team m = Some tn.
Proof.
  unfold match_getitem. cbn [append String.eqb Ascii.eqb Bool.eqb].
  destruct (home_team m); simpl; congruence.
Qed.

Lemma match_getitem_away m tn :
  match_getitem m ("away" ++ "_team") = Ok tn -> away_team m = Some tn.
Proof.
  unfold match_getitem. cbn [append String.eqb Ascii.eqb Bool.eqb].
  destruct (away_team m); simpl; congruence.
Qed.

Lemma match_getitem_key m key v :
  match_getitem m key = Ok v ->
  (key = "home_team" -> home_team m = Some v) /\
  (key = "away_team" -> away_team m = Some v).
Proof.
  intros H. split; intros ->; unfold match_getitem in H;
    cbn [String.eqb Ascii.eqb Bool.eqb] in H.
  - destruct (home_team m); simpl in H; congruence.
  - destruct (away_team m); simpl in H; congruence.
Qed.

(** What one side of one market emits. *)
Lemma _compare_spread_odds_sources self m sb team spread odds cands ops :
  _compare_spread_odds self m sb team spread odds cands = Ok ops ->
  forall o, In o ops ->
  exists c team_name home away,
    match_getitem m (team ++ "_team") = Ok team_name /\
    home_team m = Some home /\ away_team m = Some away /\
    In c cands /\
    _is_matching_spread_market self c team_name spread = Ok true /\
    ticker c = Some (kalshi_contract o) /\
    yes_ask c = Some (kalshi_price o) /\
    sportsbook o = sb /\ sportsbook_odds o = odds /\
    match_name o = (home ++ " vs " ++ away)%string /\
    sportsbook_market o = (team_name ++ " " ++ PyFormat.format_plus_g spread)%string.
Proof.
  unfold _compare_spread_odds. intros H o Ho.
  bind_inv H. bind_inv H.
  destruct (for_extend_In _ _ _ H o Ho) as (c & out & Hc & Hout & Hin).
  bind_inv Hout. destruct v1; [|injection Hout as <-; destruct Hin].
  bind_inv Hout. bind_inv Hout.
  destruct (leb _ _); [|injection Hout as <-; destruct Hin].
  do 6 bind_inv Hout. injection Hout as <-. destruct Hin as [<-|[]].
  exists c, v0, v3, v4.
  cbn [match_name sportsbook sportsbook_market sportsbook_odds kalshi_contract kalshi_price].
  apply match_getitem_key in E4 as [E4 _]. apply match_getitem_key in E5 as [_ E5].
  specialize (E4 eq_refl). specialize (E5 eq_refl).
  destruct (ticker c); [|discriminate]. destruct (yes_ask c); [|discriminate].
  simpl in E2, E7. injection E2 as <-. injection E7 as <-.
  repeat split; auto.
Qed.

Lemma subscript_ok {A : Type} (key : string) (field : option A) (v : A) :
  subscript key field = Ok v -> field = Some v.
Proof. destruct field; simpl; congruence. Qed.

Lemma provenance_of_output self sd kms ops :
  find_opportunities self sd kms = Ok ops ->
  forall o, In o ops -> provenance self sd kms o.
Proof.
  unfold find_opportunities. intros H o Ho. bind_as H collected Hcol. injection H as <-.
  apply (Permutation_in o
           (Permutation_sym (sort_reverse_perm edge_percentage collected))) in Ho.
  unfold collect in Hcol.
  destruct (for_extend_In _ _ _ Hcol o Ho) as ([sb ms] & out & Hsd & Hout & Hin).
  destruct (for_extend_In _ _ _ Hout o Hin) as (m & out' & Hm & Hout' & Hin').
  unfold compare_match in Hout'. bind_as Hout' cands Hcands.
  destruct cands as [|c0 cands0]; [injection Hout' as <-; destruct Hin'|].
  bind_as Hout' mks Hmks. apply subscript_ok in Hmks.
  destruct (for_extend_In _ _ _ Hout' o Hin') as (mk & out'' & Hmk & Hout'' & Hin'').
  unfold compare_market in Hout''. bind_as Hout'' ty Hty. apply subscript_ok in Hty.
  destruct (String.eqb ty "spread") eqn:Hspread;
    [|injection Hout'' as <-; destruct Hin''].
  apply String.eqb_eq in Hspread. subst ty.
  bind_as Hout'' hs Hhs. bind_as Hout'' ho Hho. bind_as Hout'' hops Hhops.
  bind_as Hout'' aws Haws. bind_as Hout'' awo Hawo. bind_as Hout'' aops Haops.
  injection Hout'' as <-.
  apply subscript_ok in Hhs, Hho, Haws, Hawo.
  apply in_app_or in Hin'' as [Hside|Hside].
  - destruct (_compare_spread_odds_sources _ _ _ _ _ _ _ _ Hhops o Hside)
      as (c & tn & home & away & Htn & Hh & Ha & Hc & Hmatch & Htk & Hya & Hsb
          & Hodds & Hname & Hmarket).
    apply match_getitem_home in Htn.
    exists sb, ms, m, mks, mk, c, home, away, tn, hs.
    repeat split; auto.
    + left. repeat split; congruence.
    + eapply candidates_incl; eassumption.
  - destruct (_compare_spread_odds_sources _ _ _ _ _ _ _ _ Haops o Hside)
      as (c & tn & home & away & Htn & Hh & Ha & Hc & Hmatch & Htk & Hya & Hsb
          & Hodds & Hname & Hmarket).
    apply match_getitem_away in Htn.
    exists sb, ms, m, mks, mk, c, home, away, tn, aws.
    repeat split; auto.
    + right. repeat split; congruence.
    + eapply candidates_incl; eassumption.
Qed.

(** X2: every record of the output comes from the input: a sportsbook
    of the mapping, one of its matches, a market of type ["spread"] of
    that match, one of its two sides, and a contract of the list that
    matches this side; the record holds the odds of the side, the
    ticker and the [yes_ask] of the contract and the names built from
    the match. *)
Theorem opportunity_provenance self sd kms ops :
  find_opportunities self sd kms = Ok ops ->
  forall o, In o ops -> provenance self sd kms o.
Proof. exact (provenance_of_output self sd kms ops). Qed.

Lemma opportunity_provenance_witness :
  match second_output with
  | Some o => provenance (__init__ None) (test_data (-150)) two_contracts o
  | None => False
  end.
Proof.
  exact (opportunity_provenance _ _ _ _ some_output_run _
           (or_intror (or_introl eq_refl))).
Defined.

(** *** The number of opportunities *)

Lemma _compare_spread_odds_length self m sb team spread odds cands ops :
  _compare_spread_odds self m sb team spread odds cands = Ok ops ->
  (List.length ops <= List.length cands)%nat.
Proof.
  unfold _compare_spread_odds. intros H. bind_inv H. bind_inv H.
  apply (for_extend_length _ (fun _ => 1%nat)) in H.
  - assert (Hsum : list_sum (map (fun _ : kalshi_market => 1%nat) cands)
                   = List.length cands).
    { clear. induction cands as [|k l IH]; simpl; [reflexivity|now rewrite IH]. }
    now rewrite Hsum in H.
  - intros k out _ Hout. bind_inv Hout.
    destruct v1; [|injection Hout as <-; simpl; lia].
    bind_inv Hout. bind_inv Hout.
    destruct (leb _ _); [|injection Hout as <-; simpl; lia].
    do 6 bind_inv Hout. injection Hout as <-. simpl. lia.
Qed.

Lemma compare_match_length self kms sb m ops :
  compare_match self kms sb m = Ok ops ->
  (List.length ops <=
   2 * match markets m with Some mks => List.length mks | None => O end
     * List.length kms)%nat.
Proof.
  unfold compare_match. intros H. bind_as H cands Hcands.
  pose proof (candidates_length _ _ _ _ Hcands) as Hlen.
  destruct cands as [|c cands]; [injection H as <-; simpl; lia|].
  bind_as H mks Hmks. apply subscript_ok in Hmks. rewrite Hmks.
  apply (for_extend_length _ (fun _ => (2 * List.length kms)%nat)) in H.
  - assert (Hsum : forall (l : list spread_market) (n : nat),
               list_sum (map (fun _ => n) l) = (List.length l * n)%nat).
    { clear. intros l n. induction l as [|k l IH]; simpl; [reflexivity|now rewrite IH]. }
    rewrite Hsum in H. lia.
  - intros mk out _ Hout. unfold compare_market in Hout. bind_inv Hout.
    destruct (String.eqb _ _); [|injection Hout as <-; simpl; lia].
    bind_as Hout hs Hhs. bind_as Hout ho Hho. bind_as Hout hops Hhops.
    bind_as Hout aws Haws. bind_as Hout awo Hawo. bind_as Hout aops Haops.
    injection Hout as <-. rewrite length_app.
    apply _compare_spread_odds_length in Hhops, Haops. lia.
Qed.

(** X3: the output has at most two records for each pair of a market
    of the input and a contract of the list. *)
Theorem opportunities_count self sd kms ops :
  find_opportunities self sd kms = Ok ops ->
  (List.length ops <= 2 * count_markets sd * List.length kms)%nat.
Proof.
  unfold find_opportunities. intros H. bind_as H collected Hcol. injection H as <-.
  rewrite <- (Permutation_length (sort_reverse_perm edge_percentage collected)).
  unfold collect in Hcol. unfold count_markets.
  revert collected Hcol. induction sd as [|[sb ms] sd IH]; intros collected Hcol;
    simpl in Hcol.
  - injection Hcol as <-. simpl. lia.
  - bind_as Hcol out Hout. bind_as Hcol rest Hrest. injection Hcol as <-.
    specialize (IH _ Hrest). rewrite length_app, map_cons.
    change (list_sum (?x :: ?t)) with (x + list_sum t)%nat. cbn [snd].
    apply (for_extend_length _
             (fun m => (2 * match markets m with Some mks => List.length mks | None => O end
                        * List.length kms)%nat)) in Hout.
    + assert (Hsum : forall l : list sportsbook_match,
                list_sum (map (fun m => (2 * match markets m with
                                             | Some mks => List.length mks
                                             | None => O end * List.length kms)%nat) l)
                = (2 * list_sum (map (fun m => match markets m with
                                               | Some mks => List.length mks
                                               | None => O end) l)
                   * List.length kms)%nat).
      { clear. induction l as [|m l IHl]; [reflexivity|].
        rewrite !map_cons.
        change (list_sum (?x :: ?t)) with (x + list_sum t)%nat.
        rewrite IHl.
        change (list_sum (?x :: ?t)) with (x + list_sum t)%nat. nia. }
      rewrite Hsum in Hout. nia.
    + intros m o _. apply compare_match_length.
Qed.

Lemma opportunities_count_witness :
  (List.length some_output
   <= 2 * count_markets (test_data (-150)) * List.length two_contracts)%nat.
Proof. exact (opportunities_count _ _ _ _ some_output_run). Defined.

(** *** The order of the floats *)

Lemma SFcompare_rank (x y : float) :
  SFcompare x y =
  match rank x, rank y with
  | Some a, Some b => Some (rank_compare a b)
  | _, _ => None
  end.
Proof.
  destruct x as [sx|sx| |sx mx ex], y as [sy|sy| |sy my ey]; simpl;
    try reflexivity;
    try (destruct sx; reflexivity); try (destruct sy; reflexivity);
    try (destruct sx, sy; reflexivity).
  destruct sx, sy; simpl; try reflexivity.
  rewrite Z.compare_opp, (Z.compare_antisym ex ey).
  destruct (ex ?= ey); reflexivity.
Qed.

Lemma rank_compare_lt a b c :
  rank_compare a b <> Gt -> rank_compare b c <> Gt -> rank_compare a c <> Gt.
Proof.
  destruct a as [[a1 a2] a3], b as [[b1 b2] b3], c as [[c1 c2] c3]. simpl.
  destruct (Z.compare_spec a1 b1), (Z.compare_spec b1 c1), (Z.compare_spec a1 c1);
    try lia; try congruence; subst;
    destruct (Z.compare_spec a2 b2), (Z.compare_spec b2 c2), (Z.compare_spec a2 c2);
    try lia; try congruence; subst;
    destruct (Z.compare_spec a3 b3), (Z.compare_spec b3 c3), (Z.compare_spec a3 c3);
    try lia; congruence.
Qed.

Lemma rank_compare_eq a b c :
  rank_compare a c = Eq -> rank_compare b c = Eq -> rank_compare a b = Eq.
Proof.
  destruct a as [[a1 a2] a3], b as [[b1 b2] b3], c as [[c1 c2] c3]. simpl.
  destruct (Z.compare_spec a1 c1), (Z.compare_spec b1 c1), (Z.compare_spec a1 b1);
    try lia; try congruence; subst;
    destruct (Z.compare_spec a2 c2), (Z.compare_spec b2 c2), (Z.compare_spec a2 b2);
    try lia; try congruence; subst;
    destruct (Z.compare_spec a3 c3), (Z.compare_spec b3 c3), (Z.compare_spec a3 b3);
    try lia; congruence.
Qed.

Lemma leb_trans (x y z : float) :
  leb x y = true -> leb y z = true -> leb x z = true.
Proof.
  unfold leb, SFleb. rewrite !SFcompare_rank.
  destruct (rank x) as [a|], (rank y) as [b|], (rank z) as [c|]; try discriminate.
  pose proof (rank_compare_lt a b c).
  destruct (rank_compare a b), (rank_compare b c), (rank_compare a c);
    try discriminate; try reflexivity; intros _ _; exfalso; apply H; congruence.
Qed.

Lemma eqb_not_ltb (x y z : float) :
  eqb x z = true -> eqb y z = true -> ltb x y = false.
Proof.
  unfold eqb, ltb, SFeqb, SFltb. rewrite !SFcompare_rank.
  destruct (rank x) as [a|], (rank y) as [b|], (rank z) as [c|]; try discriminate.
  pose proof (rank_compare_eq a b c).
  destruct (rank_compare a c), (rank_compare b c); try discriminate.
  intros _ _. now rewrite H.
Qed.

(** *** Ties keep their order *)

Section Stable.

Context {A : Type} (key : A -> float) (x : float).

Lemma insert_desc_ties (a : A) (l : list A) :
  filter (fun o => eqb (key o) x) (insert_desc key a l) =
  filter (fun o => eqb (key o) x) (a :: l).
Proof.
  induction l as [|y l IH]; [reflexivity|].
  cbn [insert_desc]. destruct (ltb (key a) (key y)) eqn:Hlt; [|reflexivity].
  cbn [filter] in *. rewrite IH.
  destruct (eqb (key a) x) eqn:Ha, (eqb (key y) x) eqn:Hy; try reflexivity.
  rewrite (eqb_not_ltb _ _ _ Ha Hy) in Hlt. discriminate.
Qed.

Lemma sort_reverse_ties (l : list A) :
  filter (fun o => eqb (key o) x) (sort_reverse key l) =
  filter (fun o => eqb (key o) x) l.
Proof.
  induction l as [|a l IH]; [reflexivity|].
  cbn [sort_reverse fold_right]. fold (sort_reverse key l).
  rewrite insert_desc_ties. cbn [filter]. now rewrite IH.
Qed.

End Stable.

(** X4: the output is the list of the collected records reordered, and
    the records with equal [edge_percentage] keep the order in which
    they were collected. *)
Theorem ties_keep_collection_order self sd kms ops :
  find_opportunities self sd kms = Ok ops ->
  exists collected,
    collect self sd kms = Ok collected /\
    Permutation collected ops /\
    forall x : float,
      filter (fun o => eqb (edge_percentage o) x) ops =
      filter (fun o => eqb (edge_percentage o) x) collected.
Proof.
  unfold find_opportunities. intros H. bind_as H collected Hcol. injection H as <-.
  exists collected. split; [exact Hcol|]. split.
  - apply sort_reverse_perm.
  - intros x. apply sort_reverse_ties.
Qed.

Lemma ties_keep_collection_order_witness :
  exists collected,
    collect (__init__ None) (test_data (-150)) two_contracts = Ok collected /\
    Permutation collected some_output /\
    forall x : float,
      filter (fun o => eqb (edge_percentage o) x) some_output =
      filter (fun o => eqb (edge_percentage o) x) collected.
Proof. exact (ties_keep_collection_order _ _ _ _ some_output_run). Defined.

(** *** Contracts without a subtitle *)

Lemma empty_subtitle_never_matches self km team_name spread t :
  title km = Some t -> subtitle km = Some "" ->
  _is_matching_spread_market self km team_name spread = Ok false.
Proof.
  intros Ht Hs. unfold _is_matching_spread_market. rewrite Ht, Hs.
  cbn [subscript bind PyStr.lower].
  destruct (negb _ && negb _)%bool; [reflexivity|].
  destruct (ltb zero spread); reflexivity.
Qed.

(** X5: when every contract has the empty subtitle (the default of the
    Kalshi client), no contract matches a spread side:
    [find_opportunities] returns the empty list, unless it raises. *)
Theorem empty_subtitles_no_opportunities self sd kms :
  (forall c, In c kms -> subtitle c = Some "") ->
  find_opportunities self sd kms = Ok [] \/
  exists e, find_opportunities self sd kms = Raise e.
Proof.
  intros Hk. destruct (find_opportunities self sd kms) as [ops|e] eqn:H;
    [left|right; now exists e].
  f_equal. destruct ops as [|o ops]; [reflexivity|]. exfalso.
  destruct (provenance_of_output _ _ _ _ H o (or_introl eq_refl))
    as (sb & ms & m & mks & mk & c & home & away & tn & spread & _ & _ & _ & _ & _ & _ & _
        & _ & Hc & Hmatch & _).
  destruct (title c) as [t|] eqn:Ht.
  - rewrite (empty_subtitle_never_matches self c tn spread t Ht (Hk c Hc)) in Hmatch.
    discriminate.
  - unfold _is_matching_spread_market in Hmatch. rewrite Ht in Hmatch. discriminate.
Qed.

Lemma empty_subtitles_no_opportunities_witness :
  find_opportunities (__init__ None) (test_data (-110)) [test_contract ""] = Ok [] \/
  exists e,
    find_opportunities (__init__ None) (test_data (-110)) [test_contract ""] = Raise e.
Proof.
  apply empty_subtitles_no_opportunities. intros c [<-|[]]. reflexivity.
Defined.

(** *** Two thresholds *)

Lemma for_extend_incl {A B : Type} (f g : A -> result (list B)) (l : list A) :
  (forall x o1, In x l -> f x = Ok o1 -> exists o2, g x = Ok o2 /\ incl o2 o1) ->
  forall outs1, for_extend f l = Ok outs1 ->
  exists outs2, for_extend g l = Ok outs2 /\ incl outs2 outs1.
Proof.
  induction l as [|x l IH]; intros Hfg outs1 H1; simpl in H1.
  - injection H1 as <-. exists []. split; [reflexivity|apply incl_refl].
  - bind_as H1 o1 Ho1. bind_as H1 r1 Hr1. injection H1 as <-.
    destruct (Hfg x o1 (or_introl eq_refl) Ho1) as (o2 & Ho2 & Hincl).
    destruct (IH (fun y o Hy => Hfg y o (or_intror Hy)) r1 Hr1) as (r2 & Hr2 & Hincl').
    exists (o2 ++ r2). simpl. rewrite Ho2. simpl. rewrite Hr2. simpl.
    split; [reflexivity|]. now apply incl_app_app.
Qed.

Section Thresholds.

Variables self1 self2 : OddsComparator.
Hypothesis Hthr : leb (threshold self1) (threshold self2) = true.

Lemma _compare_spread_odds_incl m sb team spread odds cands ops1 :
  _compare_spread_odds self1 m sb team spread odds cands = Ok ops1 ->
  exists ops2, _compare_spread_odds self2 m sb team spread odds cands = Ok ops2 /\
               incl ops2 ops1.
Proof.
  unfold _compare_spread_odds. intros H.
  bind_as H sp Hsp. bind_as H tn Htn. rewrite Hsp, Htn. cbn [bind].
  revert ops1 H. apply for_extend_incl. intros c o1 _ H.
  change (_is_matching_spread_market self2 c tn spread)
    with (_is_matching_spread_market self1 c tn spread).
  bind_as H matching Hm. rewrite Hm. cbn [bind].
  destruct matching; [|exists []; split; [reflexivity|apply incl_nil_l]].
  bind_as H ask Hask. bind_as H kp Hkp.
  rewrite Hask. cbn [bind]. rewrite Hkp. cbn [bind].
  destruct (leb (threshold self2) (abs (sub sp kp))) eqn:H2;
    [|exists []; split; [reflexivity|apply incl_nil_l]].
  rewrite (leb_trans _ _ _ Hthr H2) in H.
  exists o1. split; [exact H|apply incl_refl].
Qed.

Lemma compare_match_incl kms sb m ops1 :
  compare_match self1 kms sb m = Ok ops1 ->
  exists ops2, compare_match self2 kms sb m = Ok ops2 /\ incl ops2 ops1.
Proof.
  unfold compare_match.
  change (_find_matching_kalshi_markets self2 m kms)
    with (_find_matching_kalshi_markets self1 m kms).
  intros H. bind_as H cands Hcands. rewrite Hcands. cbn [bind].
  destruct cands as [|c cands]; [exists []; split; [reflexivity|apply incl_nil_l]|].
  bind_as H mks Hmks. rewrite Hmks. cbn [bind].
  revert ops1 H. apply for_extend_incl. intros mk o1 _ H.
  unfold compare_market in *. bind_as H ty Hty. rewrite Hty. cbn [bind].
  destruct (String.eqb ty "spread"); [|exists []; split; [reflexivity|apply incl_nil_l]].
  bind_as H hs Hhs. bind_as H ho Hho. bind_as H hops Hhops.
  bind_as H aws Haws. bind_as H awo Hawo. bind_as H aops Haops. injection H as <-.
  rewrite Hhs. cbn [bind]. rewrite Hho. cbn [bind].
  destruct (_compare_spread_odds_incl _ _ _ _ _ _ _ Hhops) as (h2 & -> & Hh2).
  cbn [bind]. rewrite Haws. cbn [bind]. rewrite Hawo. cbn [bind].
  destruct (_compare_spread_odds_incl _ _ _ _ _ _ _ Haops) as (a2 & -> & Ha2).
  cbn [bind]. exists (h2 ++ a2). split; [reflexivity|now apply incl_app_app].
Qed.

End Thresholds.

(** X6: raising the threshold only removes records: when the call
    with the lower threshold returns, the call with the higher one
    returns too, and each of its records is a record of the first. *)
Theorem higher_threshold_selects self1 self2 sd kms ops1 :
  leb (threshold self1) (threshold self2) = true ->
  find_opportunities self1 sd kms = Ok ops1 ->
  exists ops2,
    find_opportunities self2 sd kms = Ok ops2 /\
    forall o, In o ops2 -> In o ops1.
Proof.
  intros Hthr H. unfold find_opportunities in *. bind_as H c1 Hc1. injection H as <-.
  assert (Hc2 : exists c2, collect self2 sd kms = Ok c2 /\ incl c2 c1).
  { unfold collect in *. revert c1 Hc1. apply for_extend_incl.
    intros [sb ms] o1 _. apply for_extend_incl.
    intros m o _. now apply compare_match_incl. }
  destruct Hc2 as (c2 & -> & Hincl). cbn [bind]. eexists. split; [reflexivity|].
  intros o Ho.
  apply (Permutation_in o (Permutation_sym (sort_reverse_perm edge_percentage c2))) in Ho.
  apply (Permutation_in o (sort_reverse_perm edge_percentage c1)).
  now apply Hincl.
Qed.

Lemma higher_threshold_selects_witness :
  exists ops2,
    find_opportunities (__init__ (Some fine_threshold)) (test_data (-150)) two_contracts
    = Ok ops2 /\
    forall o, In o ops2 -> In o some_output.
Proof.
  exact (higher_threshold_selects (__init__ None) (__init__ (Some fine_threshold))
           _ _ _ eq_refl some_output_run).
Defined.

(** *** Replacing a match by one that compares alike *)

Lemma replace_match self kms sb m1 m2 :
  compare_match self kms sb m1 = compare_match self kms sb m2 ->
  forall sd1 ms1 ms2 sd2,
    find_opportunities self (sd1 ++ (sb, ms1 ++ m1 :: ms2) :: sd2) kms =
    find_opportunities self (sd1 ++ (sb, ms1 ++ m2 :: ms2) :: sd2) kms.
Proof.
  intros Hm sd1 ms1 ms2 sd2. unfold find_opportunities, collect.
  rewrite !for_extend_app. cbn [for_extend]. rewrite !for_extend_app.
  cbn [for_extend]. now rewrite Hm.
Qed.

(** X7: a market whose [type] is not ["spread"] is ignored, whatever
    else it holds or lacks: the result is the one without it. *)
Theorem other_market_types_ignored self kms sb m mk ty mks1 mks2 :
  type mk = Some ty -> ty <> "spread" ->
  forall sd1 ms1 ms2 sd2,
    find_opportunities self
      (sd1 ++ (sb, ms1 ++ with_markets m (mks1 ++ mk :: mks2) :: ms2) :: sd2) kms =
    find_opportunities self
      (sd1 ++ (sb, ms1 ++ with_markets m (mks1 ++ mks2) :: ms2) :: sd2) kms.
Proof.
  intros Hty Hne. apply replace_match. unfold compare_match.
  change (_find_matching_kalshi_markets self (with_markets m (mks1 ++ mk :: mks2)) kms)
    with (_find_matching_kalshi_markets self (with_markets m (mks1 ++ mks2)) kms).
  destruct (_find_matching_kalshi_markets _ _ kms) as [[|c cands]|e]; try reflexivity.
  cbn [bind with_markets markets subscript].
  change (compare_market self (with_markets m (mks1 ++ mk :: mks2)))
    with (compare_market self (with_markets m (mks1 ++ mks2))).
  apply for_extend_skip. unfold compare_market. rewrite Hty. cbn [subscript bind].
  apply String.eqb_neq in Hne. now rewrite Hne.
Qed.

Lemma other_market_types_ignored_witness :
  find_opportunities (__init__ None)
    [("test_sportsbook",
      [with_markets (test_match None) [moneyline_market; test_market (-150)]])]
    two_contracts =
  find_opportunities (__init__ None)
    [("test_sportsbook", [with_markets (test_match None) [test_market (-150)]])]
    two_contracts.
Proof.
  exact (other_market_types_ignored (__init__ None) two_contracts "test_sportsbook"
           (test_match None) moneyline_market "moneyline" [] [test_market (-150)]
           eq_refl ltac:(discriminate) [] [] [] []).
Defined.

(** *** Odds of zero *)

Lemma zero_home_odds self kms sb m ms sd cands mk mks hs :
  _find_matching_kalshi_markets self m kms = Ok cands -> cands <> [] ->
  markets m = Some (mk :: mks) ->
  type mk = Some "spread" -> home_spread mk = Some hs -> home_odds mk = Some 0 ->
  find_opportunities self ((sb, m :: ms) :: sd) kms = Raise ZeroDivisionError.
Proof.
  intros Hc Hne Hm Hty Hhs Hho. unfold find_opportunities, collect.
  cbn [for_extend]. unfold compare_match at 1. rewrite Hc. cbn [bind].
  destruct cands as [|c cands]; [congruence|].
  rewrite Hm. cbn [subscript bind for_extend]. unfold compare_market at 1.
  rewrite Hty, Hhs, Hho. cbn [subscript bind String.eqb Ascii.eqb Bool.eqb].
  reflexivity.
Qed.

(** X8: when the first match has a candidate contract and its first
    market is a spread market whose [home_odds] are 0,
    [find_opportunities] raises [ZeroDivisionError]. *)
Theorem zero_home_odds_raise self kms sb m ms sd cands mk mks hs :
  _find_matching_kalshi_markets self m kms = Ok cands -> cands <> [] ->
  markets m = Some (mk :: mks) ->
  type mk = Some "spread" -> home_spread mk = Some hs -> home_odds mk = Some 0 ->
  find_opportunities self ((sb, m :: ms) :: sd) kms = Raise ZeroDivisionError.
Proof. exact (zero_home_odds self kms sb m ms sd cands mk mks hs). Qed.

Lemma zero_home_odds_raise_witness :
  find_opportunities (__init__ None) (test_data 0) [test_contract scenario_subtitle]
  = Raise ZeroDivisionError.
Proof.
  apply (zero_home_odds_raise (__init__ None) [test_contract scenario_subtitle]
           "test_sportsbook" (test_match (Some [test_market 0])) [] []
           [test_contract scenario_subtitle] (test_market 0) [] (literal (-15) 1));
    try reflexivity.
  discriminate.
Defined.

(** ** The converter, on ranges of odds *)

Lemma side_of_50_checked_pos : all_from (Z.to_nat 5000) 1 side_of_50 = true.
Proof. vm_compute. reflexivity. Qed.

Lemma side_of_50_checked_neg : all_from (Z.to_nat 5000) (-5000) side_of_50 = true.
Proof. vm_compute. reflexivity. Qed.

(** X9: for nonzero odds [a] with [|a| <= 5000], the probability is
    exactly 50 when [|a| = 100]; it is below 50 for [a > 100] and for
    [-100 < a < 0], and above 50 for [a < -100] and for [0 < a < 100]:
    odds inside [(-100, 100)] are converted like any other, with the
    sides exchanged. *)
Theorem favourite_and_underdog (a : Z) :
  a <> 0 -> -5000 <= a <= 5000 ->
  exists p, american_to_probability a = Ok p /\
    (Z.abs a = 100 -> p = f50) /\
    (a > 100 \/ -100 < a < 0 -> ltb p f50 = true) /\
    (a < -100 \/ 0 < a < 100 -> ltb f50 p = true).
Proof.
  intros Hnz Hr.
  assert (H : side_of_50 a = true).
  { destruct (Z_lt_le_dec a 0).
    - apply (all_from_spec _ _ (-5000) side_of_50_checked_neg). rewrite Z2Nat.id; lia.
    - apply (all_from_spec _ _ 1 side_of_50_checked_pos). rewrite Z2Nat.id; lia. }
  unfold side_of_50 in H.
  destruct (american_to_probability a) as [p|e]; [|discriminate].
  exists p. split; [reflexivity|].
  destruct (Z.compare_spec (Z.abs a) 100) as [Habs|Habs|Habs].
  - split; [|split; lia]. intros _.
    destruct p as [s|s| |s m e], f50 as [s'|s'| |s' m' e'] eqn:E; simpl in H;
      try discriminate.
    apply andb_prop in H as [H He]. apply andb_prop in H as [Hs Hm].
    apply Bool.eqb_prop in Hs. apply Pos.eqb_eq in Hm. apply Z.eqb_eq in He.
    now subst.
  - destruct (a >? 0) eqn:Hpos; [apply Z.gtb_lt in Hpos|rewrite Z.gtb_ltb in Hpos;
      apply Z.ltb_ge in Hpos]; (split; [lia|]); split; intros; try exact H; lia.
  - destruct (a >? 0) eqn:Hpos; [apply Z.gtb_lt in Hpos|rewrite Z.gtb_ltb in Hpos;
      apply Z.ltb_ge in Hpos]; (split; [lia|]); split; intros; try exact H; lia.
Qed.

Lemma favourite_and_underdog_witness :
  exists p, american_to_probability (-150) = Ok p /\
    (Z.abs (-150) = 100 -> p = f50) /\
    (-150 > 100 \/ -100 < -150 < 0 -> ltb p f50 = true) /\
    (-150 < -100 \/ 0 < -150 < 100 -> ltb f50 p = true).
Proof. apply (favourite_and_underdog (-150)); lia. Defined.

Lemma round_trip_checked_pos :
  all_from (Z.to_nat 4901) 100 round_trip_within_one = true.
Proof. vm_compute. reflexivity. Qed.

Lemma round_trip_checked_neg :
  all_from (Z.to_nat 4900) (-5000) round_trip_within_one = true.
Proof. vm_compute. reflexivity. Qed.

(** X10: for [100 <= a <= 5000] and for [-5000 <= a <= -101], converting
    to decimal odds and back returns without an error, and gives [a] or
    the integer next to [a] on the side of 0. *)
Theorem round_trip_truncates (a : Z) :
  100 <= a <= 5000 \/ -5000 <= a <= -101 ->
  exists b, round_trip a = Ok b /\
    (a > 0 -> b = a \/ b = a - 1) /\
    (a < 0 -> b = a \/ b = a + 1).
Proof.
  intros Hr.
  assert (H : round_trip_within_one a = true).
  { destruct Hr.
    - apply (all_from_spec _ _ 100 round_trip_checked_pos). rewrite Z2Nat.id; lia.
    - apply (all_from_spec _ _ (-5000) round_trip_checked_neg). rewrite Z2Nat.id; lia. }
  unfold round_trip_within_one in H.
  destruct (round_trip a) as [b|e]; [|discriminate].
  exists b. split; [reflexivity|].
  destruct (a >? 0) eqn:Hpos; [apply Z.gtb_lt in Hpos|rewrite Z.gtb_ltb in Hpos;
      apply Z.ltb_ge in Hpos]; apply orb_prop in H;
    rewrite !Z.eqb_eq in H; split; intros; try lia; exact H.
Qed.

Lemma round_trip_truncates_witness :
  exists b, round_trip 115 = Ok b /\
    (115 > 0 -> b = 115 \/ b = 115 - 1) /\
    (115 < 0 -> b = 115 \/ b = 115 + 1).
Proof. apply (round_trip_truncates 115). lia. Defined.

Lemma tie_to_even_checked : all_from (Z.to_nat 100) 0 tie_to_even = true.
Proof. vm_compute. reflexivity. Qed.

(** X11: the probability [n + 0.5], for an integer [n] from 0 to 99, is
    priced at the even one of [n] and [n + 1]. *)
Theorem price_ties_to_even (n : Z) :
  0 <= n <= 99 ->
  probability_to_kalshi_price (quotient (2 * n + 1) 2)
  = Ok (if Z.even n then n else n + 1).
Proof.
  intros Hn.
  assert (H : tie_to_even n = true).
  { apply (all_from_spec _ _ 0 tie_to_even_checked). rewrite Z2Nat.id; lia. }
  unfold tie_to_even in H.
  destruct (probability_to_kalshi_price _) as [q|e]; [|discriminate].
  apply Z.eqb_eq in H. now subst.
Qed.

Lemma price_ties_to_even_witness :
  probability_to_kalshi_price (quotient (2 * 64 + 1) 2)
  = Ok (if Z.even 64 then 64 else 64 + 1).
Proof. apply (price_ties_to_even 64). lia. Defined.

(** *** The price of a probability between 0 and 100 *)

Lemma digits2_pos_bound (m : positive) : Zpos m < 2 ^ Zpos (digits2_pos m).
Proof.
  induction m as [m IH|m IH|]; cbn [digits2_pos];
    try (rewrite Pos2Z.inj_succ, Z.pow_succ_r by lia); lia.
Qed.

Lemma nearest_even_bounds (p q k : Z) :
  0 <= p -> 0 < q -> p <= k * q -> 0 <= nearest_even p q <= k.
Proof.
  intros Hp Hq Hk. unfold nearest_even.
  pose proof (Z_div_mod p q ltac:(lia)) as H.
  destruct (Z.div_eucl p q) as [d r]. destruct H as [H Hr].
  assert (0 <= d) by nia. assert (d <= k) by nia.
  destruct (Z.compare_spec (2 * r) q); [destruct (Z.even d)| |]; try nia.
Qed.

(** X12: a probability between 0 and 100 (a well-formed double [p] with
    [0 <= p <= 100]) gets a price between 0 and 100. *)
Theorem price_in_range (p : float) :
  valid_binary prec emax p = true ->
  leb zero p = true -> leb p f100 = true ->
  exists q, probability_to_kalshi_price p = Ok q /\ 0 <= q <= 100.
Proof.
  intros Hv H0 H100. unfold probability_to_kalshi_price, round.
  destruct p as [s|s| |s m e]; try discriminate.
  - exists 0. split; [reflexivity|lia].
  - destruct s; discriminate.
  - destruct s; [discriminate|].
    unfold leb, SFleb, f100 in H100. cbn [SFcompare] in H100.
    cbn [valid_binary] in Hv. unfold bounded, canonical_mantissa, fexp in Hv.
    apply andb_prop in Hv as [Hc _]. apply Z.eqb_eq in Hc.
    pose proof (digits2_pos_bound m) as Hd.
    assert (Hm : Zpos m < 2 ^ 53).
    { eapply Z.lt_le_trans; [exact Hd|]. apply Z.pow_le_mono_r; unfold prec in Hc; lia. }
    destruct (Z.compare_spec e (-46)) as [He|He|He]; try discriminate.
    + subst e.
      assert (Hle : (m <= 7036874417766400)%positive).
      { unfold Pos.le, Pos.compare.
        destruct (Pos.compare_cont Eq m 7036874417766400); congruence. }
      exists (nearest_even (Zpos m) (2 ^ 46)). split; [reflexivity|].
      apply (nearest_even_bounds (Zpos m) (2 ^ 46) 100);
        [apply Pos2Z.is_nonneg|reflexivity|exact Hle].
    + destruct e as [|e|e]; try (exfalso; clear - He; lia).
      exists (nearest_even (Zpos m) (2 ^ Zpos e)). split; [reflexivity|].
      assert (He' : 2 ^ 47 <= 2 ^ Zpos e) by (apply Z.pow_le_mono_r; clear - He; lia).
      change (2 ^ 53) with (64 * 2 ^ 47) in Hm.
      set (q := 2 ^ Zpos e) in *. set (q0 := 2 ^ 47) in *.
      assert (Hq0 : 0 < q0) by reflexivity.
      clearbody q q0. clear - Hm He' Hq0.
      pose proof (nearest_even_bounds (Zpos m) q 64 ltac:(lia) ltac:(lia) ltac:(nia)).
      lia.
Qed.

Lemma price_in_range_witness :
  exists q, probability_to_kalshi_price (literal 654 1) = Ok q /\ 0 <= q <= 100.
Proof. apply (price_in_range (literal 654 1)); reflexivity. Defined.

(** ** The processing of the events *)

Lemma for_state_invariant {A S : Type} (P : S -> Prop) (body : S -> A -> result S)
  (l : list A) :
  (forall s x s', P s -> body s x = Ok s' -> P s') ->
  forall s0 s, P s0 -> for_state body l s0 = Ok s -> P s.
Proof.
  intros Hbody. induction l as [|x l IH]; intros s0 s H0 Hrun; simpl in Hrun.
  - injection Hrun as <-. exact H0.
  - bind_as Hrun s1 Hs1. exact (IH s1 s (Hbody _ _ _ H0 Hs1) Hrun).
Qed.

Lemma process_market_complete home away market mks :
  process_market home away market = Ok mks ->
  forall mk, In mk mks -> complete mk.
Proof.
  unfold process_market. intros H mk Hmk.
  destruct (value_eqb _ _); [|injection H as <-; destruct Hmk].
  bind_as H os Hos. bind_as H sm Hsm.
  apply (for_state_invariant
           (fun sm => type sm = Some "spread" /\
                      (home_spread sm <> None -> home_odds sm <> None) /\
                      (away_spread sm <> None -> away_odds sm <> None))) in Hsm.
  - destruct (home_spread sm) eqn:Hh, (away_spread sm) eqn:Ha;
      cbn [has_key andb] in H; injection H as <-;
      [|destruct Hmk|destruct Hmk|destruct Hmk].
    destruct Hmk as [<-|[]]. destruct Hsm as (Hty & Hho & Hao).
    unfold complete. rewrite Hh, Ha.
    repeat split; try discriminate; auto; [apply Hho|apply Hao]; discriminate.
  - clear. intros s o s' (Hty & Hh & Ha) Hbody. unfold process_outcome in Hbody.
    bind_as Hbody odds Hodds.
    destruct (value_eqb _ _).
    + bind_as Hbody sp Hsp. injection Hbody as <-. cbn. repeat split; auto; discriminate.
    + destruct (value_eqb _ _).
      * bind_as Hbody sp Hsp. injection Hbody as <-. cbn.
        repeat split; auto; discriminate.
      * injection Hbody as <-. auto.
  - cbn. repeat split; auto.
Qed.

Lemma complete_markets events ms :
  _process_matches events = Ok ms ->
  forall m, In m ms ->
    pm_markets m <> [] /\ forall mk, In mk (pm_markets m) -> complete mk.
Proof.
  unfold _process_matches. intros H m Hm.
  destruct (for_extend_In _ _ _ H m Hm) as (ev & out & _ & Hev & Hin).
  unfold process_event in Hev.
  bind_as Hev home Hhome. bind_as Hev away Haway. bind_as Hev comp Hcomp.
  bind_as Hev rms Hrms. bind_as Hev mks Hmks.
  destruct mks as [|mk0 mks]; injection Hev as <-; [destruct Hin|].
  destruct Hin as [<-|[]]. cbn [pm_markets]. split; [discriminate|].
  intros mk Hmk.
  destruct (for_extend_In _ _ _ Hmks mk Hmk) as (rm & out & _ & Hrm & Hin).
  eapply process_market_complete; eassumption.
Qed.

(** X13: every match that [_process_matches] returns has at least one
    market, and each of its markets has the type ["spread"] and the
    four keys [home_spread], [home_odds], [away_spread] and
    [away_odds]. *)
Theorem processed_markets_complete events ms :
  _process_matches events = Ok ms ->
  forall m, In m ms ->
    pm_markets m <> [] /\ forall mk, In mk (pm_markets m) -> complete mk.
Proof. exact (complete_markets events ms). Qed.

Lemma processed_output_run :
  _process_matches [test_event "SPREAD" (JStr "-110")] = Ok processed_output.
Proof. vm_compute. reflexivity. Qed.

Lemma processed_markets_complete_witness :
  match processed_output with
  | m :: _ => pm_markets m <> [] /\ forall mk, In mk (pm_markets m) -> complete mk
  | [] => False
  end.
Proof.
  exact (processed_markets_complete _ _ processed_output_run _ (or_introl eq_refl)).
Defined.

(** *** No [KeyError] on processed matches *)

Lemma no_key_error_bind {A B : Type} (c : result A) (k : A -> result B) :
  no_key_error c -> (forall a, c = Ok a -> no_key_error (k a)) ->
  no_key_error (bind c k).
Proof. destruct c as [a|e]; simpl; auto. Qed.

Lemma no_key_error_for_extend {A B : Type} (body : A -> result (list B)) (l : list A) :
  (forall x, In x l -> no_key_error (body x)) -> no_key_error (for_extend body l).
Proof.
  induction l as [|x l IH]; intros H; simpl; [exact I|].
  apply no_key_error_bind; [apply H; now left|]. intros out _.
  apply no_key_error_bind; [apply IH; intros y Hy; apply H; now right|].
  intros rest _. exact I.
Qed.

Lemma no_key_error_subscript {A : Type} (key : string) (field : option A) :
  field <> None -> no_key_error (subscript key field).
Proof. destruct field; simpl; [auto|congruence]. Qed.

Lemma int_truediv_no_key_error a b : no_key_error (int_truediv a b).
Proof.
  unfold int_truediv. destruct (b =? 0); [exact I|].
  destruct (is_inf _); exact I.
Qed.

Lemma truediv_no_key_error x y : no_key_error (truediv x y).
Proof. unfold truediv. destruct (eqb y _); exact I. Qed.

Lemma american_to_probability_no_key_error a :
  no_key_error (american_to_probability a).
Proof.
  unfold american_to_probability, american_to_decimal, decimal_to_probability.
  apply no_key_error_bind.
  - destruct (a >? 0); (apply no_key_error_bind;
      [apply int_truediv_no_key_error|intros; exact I]).
  - intros d _. apply no_key_error_bind; [apply truediv_no_key_error|intros; exact I].
Qed.

Lemma round_ndigits_no_key_error x n : no_key_error (round_ndigits x n).
Proof.
  unfold round_ndigits. destruct x; try exact I. destruct (is_inf _); exact I.
Qed.

Lemma of_int_no_key_error n : no_key_error (of_int n).
Proof. unfold of_int. destruct (is_inf _); exact I. Qed.

Section NoKeyError.

Variable self : OddsComparator.
Variable kms : list kalshi_market.
Hypothesis Hkms : forall c, In c kms ->
  title c <> None /\ subtitle c <> None /\ yes_ask c <> None /\ ticker c <> None.

Lemma _is_matching_no_key_error c team_name spread :
  In c kms -> no_key_error (_is_matching_spread_market self c team_name spread).
Proof.
  intros Hc. destruct (Hkms c Hc) as (Ht & Hs & _).
  unfold _is_matching_spread_market.
  destruct (title c); [|congruence]. destruct (subtitle c); [|congruence].
  cbn [subscript bind]. destruct (_ && _)%bool; exact I.
Qed.

Lemma match_getitem_no_key_error m key :
  home_team m <> None -> away_team m <> None ->
  key = "home_team" \/ key = "away_team" -> no_key_error (match_getitem m key).
Proof.
  intros Hh Ha [-> | ->]; unfold match_getitem; cbn [String.eqb Ascii.eqb Bool.eqb];
    now apply no_key_error_subscript.
Qed.

Lemma _compare_spread_odds_no_key_error m sb team spread odds cands :
  home_team m <> None -> away_team m <> None ->
  team = "home" \/ team = "away" ->
  (forall c, In c cands -> In c kms) ->
  no_key_error (_compare_spread_odds self m sb team spread odds cands).
Proof.
  intros Hh Ha Hteam Hcands. unfold _compare_spread_odds.
  apply no_key_error_bind; [apply american_to_probability_no_key_error|]. intros sp _.
  apply no_key_error_bind.
  { apply match_getitem_no_key_error; auto. destruct Hteam as [-> | ->]; auto. }
  intros tn _. apply no_key_error_for_extend. intros c Hc. apply Hcands in Hc.
  destruct (Hkms c Hc) as (_ & _ & Hya & Htk).
  apply no_key_error_bind; [now apply _is_matching_no_key_error|].
  intros [|] _; [|exact I].
  apply no_key_error_bind; [now apply no_key_error_subscript|]. intros pr _.
  apply no_key_error_bind; [apply of_int_no_key_error|]. intros kp _.
  destruct (leb _ _); [|exact I].
  apply no_key_error_bind; [apply match_getitem_no_key_error; auto|]. intros h _.
  apply no_key_error_bind; [apply match_getitem_no_key_error; auto|]. intros a _.
  apply no_key_error_bind; [apply round_ndigits_no_key_error|]. intros r1 _.
  apply no_key_error_bind; [now apply no_key_error_subscript|]. intros tk _.
  apply no_key_error_bind; [apply round_ndigits_no_key_error|]. intros r2 _.
  apply no_key_error_bind; [apply round_ndigits_no_key_error|]. intros r3 _.
  exact I.
Qed.

Lemma _find_matching_no_key_error m :
  home_team m <> None -> away_team m <> None ->
  no_key_error (_find_matching_kalshi_markets self m kms).
Proof.
  intros Hh Ha. unfold _find_matching_kalshi_markets.
  apply no_key_error_bind; [apply match_getitem_no_key_error; auto|]. intros h _.
  apply no_key_error_bind; [apply match_getitem_no_key_error; auto|]. intros a _.
  apply no_key_error_for_extend. intros c Hc. destruct (Hkms c Hc) as (Ht & Hs & _).
  apply no_key_error_bind; [now apply no_key_error_subscript|]. intros t _.
  apply no_key_error_bind; [now apply no_key_error_subscript|]. intros st _.
  destruct (_ && _)%bool; exact I.
Qed.

Lemma compare_match_no_key_error sb m mks :
  home_team m <> None -> away_team m <> None ->
  markets m = Some mks -> (forall mk, In mk mks -> complete mk) ->
  no_key_error (compare_match self kms sb m).
Proof.
  intros Hh Ha Hm Hmks. unfold compare_match.
  apply no_key_error_bind; [now apply _find_matching_no_key_error|].
  intros cands Hcands. destruct cands as [|c0 cands0]; [exact I|].
  rewrite Hm. cbn [subscript bind].
  apply no_key_error_for_extend. intros mk Hmk.
  destruct (Hmks mk Hmk) as (Hty & Hhs & Hho & Has & Hao).
  unfold compare_market. rewrite Hty. cbn [subscript bind String.eqb Ascii.eqb Bool.eqb].
  pose proof (candidates_incl _ _ _ _ Hcands) as Hincl.
  apply no_key_error_bind; [now apply no_key_error_subscript|]. intros hs _.
  apply no_key_error_bind; [now apply no_key_error_subscript|]. intros ho _.
  apply no_key_error_bind; [apply _compare_spread_odds_no_key_error; auto|]. intros o1 _.
  apply no_key_error_bind; [now apply no_key_error_subscript|]. intros aws _.
  apply no_key_error_bind; [now apply no_key_error_subscript|]. intros awo _.
  apply no_key_error_bind; [apply _compare_spread_odds_no_key_error; auto|]. intros o2 _.
  exact I.
Qed.

End NoKeyError.

(** X14: on the matches that [_process_matches] returns, when their
    team names are strings and the contracts have a title, a subtitle,
    a [yes_ask] and a ticker, [find_opportunities] raises no
    [KeyError]. *)
Theorem processed_matches_no_key_error self sb events ms kms :
  _process_matches events = Ok ms ->
  (forall m, In m ms -> pm_home_team m <> None /\ pm_away_team m <> None) ->
  (forall c, In c kms ->
     title c <> None /\ subtitle c <> None /\ yes_ask c <> None /\ ticker c <> None) ->
  no_key_error (find_opportunities self [(sb, map as_match ms)] kms).
Proof.
  intros Hrun Hnames Hkms.
  unfold find_opportunities, collect.
  apply no_key_error_bind; [|intros; exact I].
  apply no_key_error_for_extend. intros [sb' ms'] [Heq|[]]. injection Heq as <- <-.
  apply no_key_error_for_extend. intros m' Hm'.
  apply in_map_iff in Hm' as (m & <- & Hm).
  destruct (Hnames m Hm) as [Hh Ha].
  destruct (complete_markets _ _ Hrun m Hm) as [_ Hc].
  eapply compare_match_no_key_error; eauto. reflexivity.
Qed.

Lemma processed_matches_no_key_error_witness :
  no_key_error
    (find_opportunities (__init__ None)
       [("SportsGameOddsClient", map as_match processed_output)] two_contracts).
Proof.
  apply (processed_matches_no_key_error (__init__ None) "SportsGameOddsClient"
           _ _ two_contracts processed_output_run).
  - intros m [<-|[]]. split; discriminate.
  - intros c [<-|[<-|[]]]; repeat split; discriminate.
Defined.

(** *** [int(str(n))] *)

Lemma more_digits_acc (d : Decimal.uint) :
  forall (acc : positive) (count : Z),
    PyParse.more_digits (NilEmpty.string_of_uint d) (Zpos acc) count =
    (Zpos (Pos.of_uint_acc d acc), count + Z.of_nat (Decimal.nb_digits d), EmptyString).
Proof.
  induction d as [|d IH|d IH|d IH|d IH|d IH|d IH|d IH|d IH|d IH|d IH];
    intros acc count;
    cbn [NilEmpty.string_of_uint PyParse.more_digits Pos.of_uint_acc Decimal.nb_digits];
    [now rewrite Z.add_0_r| | | | | | | | | |];
    match goal with
    | |- context [PyParse.digit ?c] =>
        let v := eval vm_compute in (PyParse.digit c) in
        change (PyParse.digit c) with v; cbv iota
    end;
    match goal with
    | |- PyParse.more_digits _ ?z _ = (Zpos (Pos.of_uint_acc d ?p), _, _) =>
        replace z with (Zpos p) by lia; rewrite (IH p), Nat2Z.inj_succ;
        do 2 f_equal; lia
    end.
Qed.

(** The digits after an accumulator shift it by one place each. *)
Lemma of_uint_acc_lower (d : Decimal.uint) :
  forall acc : positive,
    Zpos acc * 10 ^ Z.of_nat (Decimal.nb_digits d) <= Zpos (Pos.of_uint_acc d acc).
Proof.
  induction d as [|d IH|d IH|d IH|d IH|d IH|d IH|d IH|d IH|d IH|d IH];
    intros acc; cbn [Pos.of_uint_acc Decimal.nb_digits];
    [rewrite Z.pow_0_r; lia|..];
    rewrite Nat2Z.inj_succ, Z.pow_succ_r by apply Nat2Z.is_nonneg;
    match goal with
    | |- _ <= Zpos (Pos.of_uint_acc d ?p) =>
        pose proof (IH p) as Hp;
        assert (Hpow : 0 < 10 ^ Z.of_nat (Decimal.nb_digits d))
          by (apply Z.pow_pos_nonneg; [lia|apply Nat2Z.is_nonneg]);
        set (P := 10 ^ Z.of_nat (Decimal.nb_digits d)) in *;
        set (R := Zpos (Pos.of_uint_acc d p)) in *;
        assert (Hacc : 10 * Zpos acc <= Zpos p) by lia;
        clearbody P R; nia
    end.
Qed.

Lemma rstrip_uint (d : Decimal.uint) :
  PyParse.rstrip (NilEmpty.string_of_uint d) = NilEmpty.string_of_uint d.
Proof.
  induction d as [|d IH|d IH|d IH|d IH|d IH|d IH|d IH|d IH|d IH|d IH];
    cbn [NilEmpty.string_of_uint PyParse.rstrip]; [reflexivity|..];
    rewrite IH; destruct (NilEmpty.string_of_uint d); reflexivity.
Qed.

(** [str] writes no zero in front of a positive number. *)
Lemma to_uint_no_leading_zero (p : positive) (d : Decimal.uint) :
  Pos.to_uint p <> Decimal.D0 d.
Proof.
  intros H.
  pose proof (Unsigned.to_of (Pos.to_uint p)) as Hn.
  rewrite Unsigned.of_to in Hn. cbn [N.to_uint] in Hn.
  rewrite H in Hn.
  change (Decimal.unorm (Decimal.D0 d))
    with (match Decimal.nzhead d with
          | Decimal.Nil => Decimal.zero
          | u => u
          end) in Hn.
  pose proof (DecimalFacts.nb_digits_nzhead d) as Hlen.
  destruct (Decimal.nzhead d) as [|u|u|u|u|u|u|u|u|u|u] eqn:Hz; try discriminate Hn.
  - injection Hn as ->.
    apply (Unsigned.to_uint_nonzero p). exact H.
  - injection Hn as ->. cbn [Decimal.nb_digits] in Hlen. lia.
Qed.

(** The digits of a positive number, as [str] writes them: [int] reads
    them back, and their number is no more than the size of the number
    allows. *)
Lemma digits_of_pos (p : positive) :
  exists c s,
    NilZero.string_of_uint (Pos.to_uint p) = String c s /\
    PyParse.is_space c = false /\
    PyStr.startswith "-" (String c s) = false /\
    PyStr.startswith "+" (String c s) = false /\
    PyParse.sign_of (String c s) = (false, String c s) /\
    PyParse.rstrip (String c s) = String c s /\
    exists count,
      PyParse.digits_from (String c s) 0 0 = Some (Zpos p, count, EmptyString) /\
      10 ^ (count - 1) <= Zpos p.
Proof.
  pose proof (Unsigned.to_uint_nonnil p) as Hnil.
  pose proof (to_uint_no_leading_zero p) as Hzero.
  pose proof (Unsigned.of_to p) as Hval.
  pose proof (rstrip_uint (Pos.to_uint p)) as Hstrip.
  destruct (Pos.to_uint p) as [|d|d|d|d|d|d|d|d|d|d];
    [congruence|exfalso; exact (Hzero d eq_refl)|..];
    cbn [NilZero.string_of_uint NilEmpty.string_of_uint] in *;
    (eexists; eexists; split; [reflexivity|]);
    (split; [reflexivity|]); (split; [reflexivity|]); (split; [reflexivity|]);
    (split; [reflexivity|]); (split; [exact Hstrip|]);
    unfold PyParse.digits_from;
    match goal with
    | |- context [PyParse.digit ?c] =>
        let v := eval vm_compute in (PyParse.digit c) in
        change (PyParse.digit c) with v; cbv iota
    end;
    cbn [Pos.of_uint] in Hval; injection Hval as Hval;
    match goal with
    | H : Pos.of_uint_acc d ?k = p |- _ =>
        exists (1 + Z.of_nat (Decimal.nb_digits d));
        pose proof (of_uint_acc_lower d k) as Hlow; rewrite H in Hlow;
        split;
        [ match goal with
          | |- Some (PyParse.more_digits _ ?z ?c) = _ =>
              change z with (Zpos k); change c with 1
          end;
          rewrite more_digits_acc, H; reflexivity
        | replace (1 + Z.of_nat (Decimal.nb_digits d) - 1)
            with (Z.of_nat (Decimal.nb_digits d)) by lia;
          assert (Hpow : 0 < 10 ^ Z.of_nat (Decimal.nb_digits d))
            by (apply Z.pow_pos_nonneg; [lia|apply Nat2Z.is_nonneg]);
          set (P := 10 ^ Z.of_nat (Decimal.nb_digits d)) in *;
          clearbody P; nia ]
    end.
Qed.

(** A count of digits that the size of the number allows is within the
    limit of [int]. *)
Lemma digits_within_limit (v count : Z) :
  10 ^ (count - 1) <= v -> v < 10 ^ PyParse.max_str_digits ->
  (PyParse.max_str_digits <? count) = false.
Proof.
  intros Hlow Hup. apply Z.ltb_ge.
  destruct (Z_le_gt_dec count PyParse.max_str_digits) as [Hle|Hgt]; [exact Hle|].
  exfalso.
  assert (Hmono : 10 ^ PyParse.max_str_digits <= 10 ^ (count - 1)).
  { apply Z.pow_le_mono_r; [lia|]. clear - Hgt. lia. }
  clear - Hlow Hup Hmono. lia.
Qed.

Lemma int_of_str_of_int (n : Z) :
  Z.abs n < 10 ^ PyParse.max_str_digits ->
  PyParse.int_of_str (PyStr.of_int n) = Ok n.
Proof.
  intros Hn.
  unfold PyStr.of_int. destruct n as [|p|p]; [reflexivity| |];
    cbn [Z.to_int NilZero.string_of_int];
    destruct (digits_of_pos p)
      as (c & s & Hs & Hsp & _ & _ & Hsign & Hr & count & Hd & Hlow);
    pose proof (digits_within_limit _ _ Hlow Hn) as Hlim;
    rewrite Hs; unfold PyParse.int_of_str, PyParse.strip.
  - cbn [PyParse.lstrip]. rewrite Hsp. cbv iota. rewrite Hr, Hsign, Hd, Hlim.
    reflexivity.
  - assert (Hr2 : PyParse.rstrip (String "-" (String c s)) = String "-" (String c s)).
    { change (PyParse.rstrip (String "-" (String c s)))
        with (match PyParse.rstrip (String c s) with
              | EmptyString =>
                  if PyParse.is_space "-" then EmptyString else String "-" EmptyString
              | String a t => String "-" (String a t)
              end).
      now rewrite Hr. }
    cbn [PyParse.lstrip]. change (PyParse.is_space "-") with false. cbv iota.
    rewrite Hr2. cbn [PyParse.sign_of].
    change (Ascii.eqb "-" "-") with true. cbv iota. rewrite Hd, Hlim. reflexivity.
Qed.

(** X15: a price that is the text of a negative integer gives that
    integer as odds, and the text of a non-negative integer after a
    ["+"] gives that integer, as long as the number is below
    [10 ^ 4300], so that [int] accepts its digits; the text of a
    non-negative integer without sign gives the odds 0. *)
Theorem price_text (n : Z) :
  (n < 0 -> - 10 ^ PyParse.max_str_digits < n ->
   odds_of_price (JStr (PyStr.of_int n)) = Ok n) /\
  (0 <= n -> n < 10 ^ PyParse.max_str_digits ->
   odds_of_price (JStr ("+" ++ PyStr.of_int n)) = Ok n) /\
  (0 <= n -> odds_of_price (JStr (PyStr.of_int n)) = Ok 0).
Proof.
  repeat split.
  - intros Hn Hlow. destruct n as [|p|p]; try (clear - Hn; lia). unfold odds_of_price.
    assert (Hs : PyStr.startswith "-" (PyStr.of_int (Zneg p)) = true).
    { unfold PyStr.of_int. cbn [Z.to_int NilZero.string_of_int PyStr.startswith].
      reflexivity. }
    rewrite Hs. apply int_of_str_of_int.
    change (Z.abs (Zneg p)) with (Zpos p).
    set (B := 10 ^ PyParse.max_str_digits) in *. clearbody B. clear - Hlow. lia.
  - intros Hn Hup. unfold odds_of_price.
    change (PyStr.startswith "-" ("+" ++ PyStr.of_int n)) with false.
    change (PyStr.startswith "+" ("+" ++ PyStr.of_int n)) with true.
    change (PyStr.drop 1 ("+" ++ PyStr.of_int n)) with (PyStr.of_int n).
    apply int_of_str_of_int. rewrite Z.abs_eq by exact Hn. exact Hup.
  - intros Hn. destruct n as [|p|p]; try (clear - Hn; lia); [reflexivity|].
    unfold odds_of_price, PyStr.of_int.
    cbn [Z.to_int NilZero.string_of_int].
    destruct (digits_of_pos p) as (c & s & -> & _ & H1 & H2 & _).
    now rewrite H1, H2.
Qed.

Lemma price_text_witness :
  odds_of_price (JStr "-110") = Ok (-110) /\
  odds_of_price (JStr "+240") = Ok 240 /\
  odds_of_price (JStr "240") = Ok 0.
Proof.
  split; [apply (proj1 (price_text (-110))); vm_compute; reflexivity|].
  split; [apply (proj1 (proj2 (price_text 240))); vm_compute; congruence|].
  apply (proj2 (proj2 (price_text 240))). vm_compute. congruence.
Defined.

Lemma whole_price_checked : all_from (Z.to_nat 4999) 2 whole_price_read = true.
Proof. vm_compute. reflexivity. Qed.

Lemma negative_price_checked :
  all_from (Z.to_nat 4901) (-5000) negative_price_read = true.
Proof. vm_compute. reflexivity. Qed.

(** X16: a price that is a JSON number is read as decimal odds, also
    when it is an American quote: the integer [n] from 2 to 5000 gives
    the odds [100 * (n - 1)], and every integer from -5000 to -100
    gives the odds 0. *)
Theorem number_price_is_decimal (n : Z) :
  (2 <= n <= 5000 -> odds_of_price (JInt n) = Ok (100 * (n - 1))) /\
  (-5000 <= n <= -100 -> odds_of_price (JInt n) = Ok 0).
Proof.
  split; intros Hn.
  - assert (H : whole_price_read n = true).
    { apply (all_from_spec _ _ 2 whole_price_checked). rewrite Z2Nat.id; lia. }
    unfold whole_price_read in H.
    destruct (odds_of_price (JInt n)) as [k|e]; [|discriminate].
    apply Z.eqb_eq in H. now subst.
  - assert (H : negative_price_read n = true).
    { apply (all_from_spec _ _ (-5000) negative_price_checked). rewrite Z2Nat.id; lia. }
    unfold negative_price_read in H.
    destruct (odds_of_price (JInt n)) as [k|e]; [|discriminate].
    apply Z.eqb_eq in H. now subst.
Qed.

Lemma number_price_is_decimal_witness :
  odds_of_price (JInt 3) = Ok (100 * (3 - 1)) /\
  odds_of_price (JInt (-110)) = Ok 0.
Proof.
  split.
  - exact (proj1 (number_price_is_decimal 3) ltac:(lia)).
  - exact (proj2 (number_price_is_decimal (-110)) ltac:(lia)).
Defined.

Lemma get_name_not_null (value : json_field named) :
  value <> Null -> exists n, get_name value = Ok n.
Proof. destruct value as [| |obj]; [now exists None|congruence|now exists (name obj)]. Qed.

(** X17: in an event whose [homeTeam], [awayTeam] and [competition]
    are not null, when the first outcome of the first market is in a
    market of type ["SPREAD"] and has the price 1 (the integer, the
    float or [true]), [_process_matches] raises [ZeroDivisionError],
    whatever the team of the outcome. *)
Theorem price_one_aborts ev evs mk mks o os :
  homeTeam ev <> Null -> awayTeam ev <> Null -> event_competition ev <> Null ->
  event_markets ev = Value (mk :: mks) ->
  marketType mk = Some "SPREAD" ->
  outcomes mk = Value (o :: os) ->
  price o = JInt 1 \/ price o = JFloat f1 \/ price o = JBool true ->
  _process_matches (ev :: evs) = Raise ZeroDivisionError.
Proof.
  intros Hh Ha Hc Hm Hty Ho Hp. unfold _process_matches. cbn [for_extend].
  unfold process_event at 1.
  destruct (get_name_not_null _ Hh) as (home & ->).
  destruct (get_name_not_null _ Ha) as (away & ->).
  destruct (get_name_not_null _ Hc) as (comp & ->).
  rewrite Hm. cbn [bind get_list for_extend].
  unfold process_market at 1. rewrite Hty, Ho.
  cbn [value_eqb String.eqb Ascii.eqb Bool.eqb bind get_list for_state].
  unfold process_outcome at 1.
  assert (Hodds : odds_of_price (price o) = Raise ZeroDivisionError).
  { destruct Hp as [-> |[-> | ->]]; vm_compute; reflexivity. }
  rewrite Hodds. reflexivity.
Qed.

Lemma price_one_aborts_witness :
  _process_matches [test_event "SPREAD" (JInt 1)] = Raise ZeroDivisionError.
Proof.
  apply (price_one_aborts (test_event "SPREAD" (JInt 1)) []
           {| marketType := Some "SPREAD";
              outcomes := Value (test_outcomes (JInt 1)) |} []
           {| outcome_name := Some "Team A";
              handicap := JFloat (literal (-15) 1);
              price := JInt 1 |}
           [ {| outcome_name := Some "Team B";
                handicap := JStr "+1.5";
                price := JStr "-110" |} ]);
    try discriminate; try reflexivity.
  left. reflexivity.
Defined.

(** X18: an event whose [homeTeam], [awayTeam], [competition] and
    [markets] are not null and none of whose markets has the type
    ["SPREAD"] yields no match and no error, whatever its markets
    hold: the result is the one without the event. *)
Theorem events_without_spread_dropped ev :
  homeTeam ev <> Null -> awayTeam ev <> Null -> event_competition ev <> Null ->
  event_markets ev <> Null ->
  (forall raw_markets mk,
     event_markets ev = Value raw_markets -> In mk raw_markets ->
     marketType mk <> Some "SPREAD") ->
  forall evs1 evs2,
    _process_matches (evs1 ++ ev :: evs2) = _process_matches (evs1 ++ evs2).
Proof.
  intros Hh Ha Hc Hm H evs1 evs2. unfold _process_matches. apply for_extend_skip.
  unfold process_event.
  destruct (get_name_not_null _ Hh) as (home & ->).
  destruct (get_name_not_null _ Ha) as (away & ->).
  destruct (get_name_not_null _ Hc) as (comp & ->).
  cbn [bind].
  assert (Hnone : forall raw_markets,
            (forall mk, In mk raw_markets -> marketType mk <> Some "SPREAD") ->
            for_extend (process_market home away) raw_markets = Ok []).
  { intros raw_markets Hall. apply for_extend_nil. intros mk Hmk.
    unfold process_market. specialize (Hall mk Hmk).
    destruct (marketType mk) as [ty|]; [|reflexivity].
    cbn [value_eqb]. destruct (String.eqb ty "SPREAD") eqn:E; [|reflexivity].
    apply String.eqb_eq in E. congruence. }
  destruct (event_markets ev) as [| |raw_markets]; [reflexivity|congruence|].
  cbn [get_list bind]. rewrite Hnone; [reflexivity|]. intros mk. now apply H.
Qed.

Lemma events_without_spread_dropped_witness :
  _process_matches [test_event "MONEYLINE" JNull; test_event "SPREAD" (JStr "-110")]
  = _process_matches [test_event "SPREAD" (JStr "-110")].
Proof.
  apply (events_without_spread_dropped (test_event "MONEYLINE" JNull)
           ltac:(discriminate) ltac:(discriminate) ltac:(discriminate)
           ltac:(discriminate)
           ltac:(intros l mk E; injection E as <-; intros [<-|[]]; discriminate)
           [] [test_event "SPREAD" (JStr "-110")]).
Defined.


Lemma value_eqb_refl (a : option string) : value_eqb a a = true.
Proof. destruct a; simpl; [apply String.eqb_refl|reflexivity]. Qed.


